(** * airgradient-influxdb: the ingestion pipeline, embedded and verified

    The development follows the two Go files of the repository:

    - [handler.go]: the [airGradientData] record and [mainHandler], the HTTP
      handler that decodes a JSON body, resolves the sensor identifier from
      the route variable and sends the reading on a channel;
    - [main.go]: the [Configuration] records, [InfluxConnect], and [main]
      with its writer loop that turns every received reading into one
      InfluxDB point.

    Library code the two files call ([strings.Split], [strconv],
    [encoding/json], [net/http], the router of [gorilla/mux] with
    [path.Clean], the InfluxDB client) is modelled by what it does on the
    arguments the repository passes to it.  Go's [int] and [uint]
    are the 64-bit types of the platforms the program is built for. *)

From Stdlib Require Import ZArith NArith QArith Qabs Qpower List String Ascii
  Bool Lia.
From Stdlib Require Import Floats.SpecFloat.
From stdpp Require Import gmap strings.

Import ListNotations.
Set Warnings "-register-all".
Local Open Scope string_scope.
Local Open Scope Z_scope.

(** ** Go's [strings] package, for one-byte separators *)

Module strings.

(** [strings.Count(s, sep)] for a separator of one byte. *)
Fixpoint Count (s : string) (sep : ascii) : nat :=
  match s with
  | EmptyString => 0%nat
  | String c s' =>
      if Ascii.eqb c sep then S (Count s' sep) else Count s' sep
  end.

(** [s[:m]] and [s[m+1:]] for [m := strings.IndexByte(s, sep)], or [None]
    when [sep] does not occur (Go's [m < 0]). *)
Fixpoint cutAt (s : string) (sep : ascii) : option (string * string) :=
  match s with
  | EmptyString => None
  | String c s' =>
      if Ascii.eqb c sep then Some (EmptyString, s')
      else match cutAt s' sep with
           | Some (a, rest) => Some (String c a, rest)
           | None => None
           end
  end.

(** The loop of [genSplit]: at most [n] cuts, the remainder last. *)
Fixpoint genSplit (n : nat) (s : string) (sep : ascii) : list string :=
  match n with
  | O => [s]
  | S n' =>
      match cutAt s sep with
      | None => [s]
      | Some (a, rest) => a :: genSplit n' rest sep
      end
  end.

(** [strings.Split(s, sep)]: [genSplit(s, sep, 0, -1)], where a negative
    count is replaced by [Count(s, sep) + 1] pieces. *)
Definition Split (s : string) (sep : ascii) : list string :=
  genSplit (Count s sep) s sep.

End strings.

(** ** Go's [strconv] package, base 10 *)

Module strconv.

Definition byteOf (c : ascii) : Z := Z.of_N (N_of_ascii c).

Definition isDigit (c : ascii) : bool :=
  (48 <=? byteOf c) && (byteOf c <=? 57).

Definition digitVal (c : ascii) : Z := byteOf c - 48.

(** The digit loop of [ParseUint]: a byte that is not a decimal digit is a
    syntax error.  The value is accumulated without a bound; the range
    checks follow in [ParseInt]. *)
Fixpoint digitsFrom (s : string) (n : Z) : option Z :=
  match s with
  | EmptyString => Some n
  | String c s' =>
      if isDigit c then digitsFrom s' (n * 10 + digitVal c) else None
  end.

Definition ParseUint (s : string) : option Z :=
  match s with
  | EmptyString => None
  | _ => digitsFrom s 0
  end.

(** [1 << (bitSize - 1)] for [bitSize = 64]. *)
Definition cutoff : Z := 2 ^ 63.

(** [strconv.ParseInt(s, 10, 64)]; [None] stands for both of its errors
    (syntax and range). *)
Definition ParseInt (s : string) : option Z :=
  match s with
  | EmptyString => None
  | String c s' =>
      let neg := Ascii.eqb c "-" in
      let s1 := if Ascii.eqb c "+" || neg then s' else s in
      match ParseUint s1 with
      | None => None
      | Some un =>
          if negb neg && (cutoff <=? un) then None
          else if neg && (cutoff <? un) then None
          else Some (if neg then - un else un)
      end
  end.

Definition digitChar (d : Z) : ascii := ascii_of_N (Z.to_N (48 + d)).

(** [formatBits] in base 10: the least significant digit is produced
    first and placed in front of what was produced before.  A 64-bit value
    has at most 20 digits. *)
Fixpoint formatBits (fuel : nat) (u : Z) (acc : string) : string :=
  match fuel with
  | O => acc
  | S fuel' =>
      if u <? 10 then String (digitChar u) acc
      else formatBits fuel' (u / 10) (String (digitChar (u mod 10)) acc)
  end.

(** [strconv.FormatInt(i, 10)], which [encoding/json] uses to encode an
    integer field. *)
Definition FormatInt (i : Z) : string :=
  let ds := formatBits 20 (Z.abs i) EmptyString in
  if i <? 0 then String "-" ds else ds.

(** A decimal literal read as [(neg, mantissa, exp10)], standing for
    [(-1)^neg * mantissa * 10^exp10]. *)
Record decimal := { neg : bool; mant : Z; exp10 : Z }.

(** The exponent digits of [readFloat]; the exponent stops growing once
    it has reached 10000. *)
Fixpoint expDigits (s : string) (sawdigits : bool) (e : Z) : option Z :=
  match s with
  | EmptyString => if sawdigits then Some e else None
  | String c s' =>
      if isDigit c
      then expDigits s' true (if e <? 10000 then e * 10 + digitVal c else e)
      else None
  end.

Definition readExp (s : string) : option Z :=
  match s with
  | EmptyString => None
  | String c s' =>
      if Ascii.eqb c "-" then option_map Z.opp (expDigits s' false 0)
      else if Ascii.eqb c "+" then expDigits s' false 0
      else expDigits s false 0
  end.

(** The mantissa loop of [readFloat]: digits with at most one point, then
    an optional exponent.  [dp] counts the digits after the point. *)
Fixpoint readMant (s : string) (sawdot sawdigits : bool) (m dp : Z)
  : option (Z * Z) :=
  match s with
  | EmptyString => if sawdigits then Some (m, - dp) else None
  | String c s' =>
      if isDigit c then
        readMant s' sawdot true (m * 10 + digitVal c)
                 (if sawdot then dp + 1 else dp)
      else if Ascii.eqb c "." then
        if sawdot then None else readMant s' true sawdigits m dp
      else if Ascii.eqb c "e" || Ascii.eqb c "E" then
        if sawdigits
        then match readExp s' with
             | Some e => Some (m, e - dp)
             | None => None
             end
        else None
      else None
  end.

Definition readFloat (s : string) : option decimal :=
  match s with
  | EmptyString => None
  | String c s' =>
      let n := Ascii.eqb c "-" in
      let s1 := if Ascii.eqb c "+" || n then s' else s in
      match readMant s1 false false 0 0 with
      | Some (m, e) => Some {| neg := n; mant := m; exp10 := e |}
      | None => None
      end
  end.

(** IEEE 754 binary64: 53 bits of precision, exponents below 1024. *)
Definition prec : Z := 53.
Definition emax : Z := 1024.

Definition float64 : Type := spec_float.

(** The binary64 value nearest to [d], ties to even: the quotient of the
    two integers [mant * 10^max(exp10,0)] and [10^max(-exp10,0)], rounded
    once. *)
Definition nearest (d : decimal) : float64 :=
  if mant d =? 0 then S754_zero (neg d)
  else
    SFdiv prec emax
      (S754_finite (neg d) (Z.to_pos (mant d * 10 ^ Z.max (exp10 d) 0)) 0)
      (S754_finite false (Z.to_pos (10 ^ Z.max (- exp10 d) 0)) 0).

Definition isInf (f : float64) : bool :=
  match f with S754_infinity _ => true | _ => false end.

(** [strconv.ParseFloat(s, 64)] on decimal literals: a value that rounds
    to an infinity is a range error. *)
Definition ParseFloat (s : string) : option float64 :=
  match readFloat s with
  | None => None
  | Some d => let f := nearest d in if isInf f then None else Some f
  end.

End strconv.

(** ** Go's [encoding/json]: the scanner and the values it recognises *)

Module json.

(** A JSON value as the decoder sees it: a number keeps its literal and a
    string keeps the bytes between its quotes, escapes unresolved. *)
Inductive Value : Type :=
| Null
| Bool (b : bool)
| Number (lit : string)
| Str (raw : string)
| Array (elems : list Value)
| Object (members : list (string * Value)).

(** The scanner's [parseState] stack.  Each entry also carries what has
    been read of its container so far, most recent first. *)
Inductive Frame : Type :=
| parseObjectKey (ms : list (string * Value)) (key : option string)
| parseObjectValue (ms : list (string * Value)) (key : option string)
| parseArrayValue (vs : list Value).

(** The scanner's [step] functions; the states inside a token carry the
    bytes of the token read so far. *)
Inductive Step : Type :=
| stateBeginValue
| stateBeginValueOrEmpty
| stateBeginString
| stateBeginStringOrEmpty
| stateEndValue
| stateEndTop (v : Value)
| stateInString (acc : string)
| stateInStringEsc (acc : string)
| stateInStringEscU (pending : nat) (acc : string)
| stateNeg (acc : string)
| state1 (acc : string)
| state0 (acc : string)
| stateDot (acc : string)
| stateDot0 (acc : string)
| stateE (acc : string)
| stateESign (acc : string)
| stateE0 (acc : string)
| stateLiteral (rest : string) (v : Value).

Definition scanner : Type := list Frame * Step.

Definition maxNestingDepth : Z := 10000.

Definition quote : ascii := "034".
Definition backslash : ascii := "\".

Definition snoc (acc : string) (c : ascii) : string :=
  acc ++ String c EmptyString.

Definition isSpace (c : ascii) : bool :=
  Ascii.eqb c " " || Ascii.eqb c "009" || Ascii.eqb c "013"
  || Ascii.eqb c "010".

Definition isHex (c : ascii) : bool :=
  let b := strconv.byteOf c in
  ((48 <=? b) && (b <=? 57)) || ((97 <=? b) && (b <=? 102))
  || ((65 <=? b) && (b <=? 70)).

Definition isDigit19 (c : ascii) : bool :=
  (49 <=? strconv.byteOf c) && (strconv.byteOf c <=? 57).

(** [pushParseState]: nesting deeper than [maxNestingDepth] is an error. *)
Definition pushParseState (ps : list Frame) (f : Frame) (success : Step)
  : option scanner :=
  if Z.of_nat (length (f :: ps)) <=? maxNestingDepth
  then Some (f :: ps, success) else None.

(** A value is complete: it is the whole input, a key, the value of a
    key, or an array element, as the top of the stack says. *)
Definition endOfValue (v : Value) (ps : list Frame) : option scanner :=
  match ps with
  | [] => Some ([], stateEndTop v)
  | parseObjectKey ms None :: ps' =>
      match v with
      | Str raw => Some (parseObjectKey ms (Some raw) :: ps', stateEndValue)
      | _ => None
      end
  | parseObjectValue ms (Some k) :: ps' =>
      Some (parseObjectValue ((k, v) :: ms) None :: ps', stateEndValue)
  | parseArrayValue vs :: ps' =>
      Some (parseArrayValue (v :: vs) :: ps', stateEndValue)
  | _ => None
  end.

(** [stateEndValue] on a byte that is not a space. *)
Definition afterValue (ps : list Frame) (c : ascii) : option scanner :=
  match ps with
  | parseObjectKey ms (Some k) :: ps' =>
      if Ascii.eqb c ":"
      then Some (parseObjectValue ms (Some k) :: ps', stateBeginValue)
      else None
  | parseObjectValue ms None :: ps' =>
      if Ascii.eqb c ","
      then Some (parseObjectKey ms None :: ps', stateBeginString)
      else if Ascii.eqb c "}" then endOfValue (Object (rev ms)) ps'
      else None
  | parseArrayValue vs :: ps' =>
      if Ascii.eqb c "," then Some (parseArrayValue vs :: ps', stateBeginValue)
      else if Ascii.eqb c "]" then endOfValue (Array (rev vs)) ps'
      else None
  | _ => None
  end.

(** The byte that ends a number or follows a complete value. *)
Definition endValue (sc : option scanner) (c : ascii) : option scanner :=
  match sc with
  | Some (ps, stateEndTop v) =>
      if isSpace c then Some (ps, stateEndTop v) else None
  | Some (ps, stateEndValue) =>
      if isSpace c then Some (ps, stateEndValue) else afterValue ps c
  | _ => None
  end.

Definition beginString (ps : list Frame) (c : ascii) : option scanner :=
  if Ascii.eqb c quote then Some (ps, stateInString EmptyString) else None.

Definition beginValue (ps : list Frame) (c : ascii) : option scanner :=
  if Ascii.eqb c "{" then
    pushParseState ps (parseObjectKey [] None) stateBeginStringOrEmpty
  else if Ascii.eqb c "[" then
    pushParseState ps (parseArrayValue []) stateBeginValueOrEmpty
  else if Ascii.eqb c quote then Some (ps, stateInString EmptyString)
  else if Ascii.eqb c "-" then Some (ps, stateNeg (String c EmptyString))
  else if Ascii.eqb c "0" then Some (ps, state0 (String c EmptyString))
  else if Ascii.eqb c "t" then Some (ps, stateLiteral "rue" (Bool true))
  else if Ascii.eqb c "f" then Some (ps, stateLiteral "alse" (Bool false))
  else if Ascii.eqb c "n" then Some (ps, stateLiteral "ull" Null)
  else if isDigit19 c then Some (ps, state1 (String c EmptyString))
  else None.

(** [state0]: after the integer part of a number. *)
Definition afterInt (ps : list Frame) (acc : string) (c : ascii)
  : option scanner :=
  if Ascii.eqb c "." then Some (ps, stateDot (snoc acc c))
  else if Ascii.eqb c "e" || Ascii.eqb c "E"
  then Some (ps, stateE (snoc acc c))
  else endValue (endOfValue (Number acc) ps) c.

(** One byte through the scanner, [s.step(s, c)]; [None] is a syntax
    error. *)
Definition step (sc : scanner) (c : ascii) : option scanner :=
  let '(ps, st) := sc in
  match st with
  | stateBeginValue =>
      if isSpace c then Some sc else beginValue ps c
  | stateBeginValueOrEmpty =>
      if isSpace c then Some sc
      else if Ascii.eqb c "]" then afterValue ps c
      else beginValue ps c
  | stateBeginString =>
      if isSpace c then Some sc else beginString ps c
  | stateBeginStringOrEmpty =>
      if isSpace c then Some sc
      else if Ascii.eqb c "}" then
        match ps with
        | parseObjectKey ms None :: ps' =>
            afterValue (parseObjectValue ms None :: ps') c
        | _ => None
        end
      else beginString ps c
  | stateEndValue => endValue (Some sc) c
  | stateEndTop _ => endValue (Some sc) c
  | stateInString acc =>
      if Ascii.eqb c quote then endOfValue (Str acc) ps
      else if Ascii.eqb c backslash
      then Some (ps, stateInStringEsc (snoc acc c))
      else if strconv.byteOf c <? 32 then None
      else Some (ps, stateInString (snoc acc c))
  | stateInStringEsc acc =>
      if Ascii.eqb c "b" || Ascii.eqb c "f" || Ascii.eqb c "n"
         || Ascii.eqb c "r" || Ascii.eqb c "t" || Ascii.eqb c backslash
         || Ascii.eqb c "/" || Ascii.eqb c quote
      then Some (ps, stateInString (snoc acc c))
      else if Ascii.eqb c "u"
      then Some (ps, stateInStringEscU 4 (snoc acc c))
      else None
  | stateInStringEscU n acc =>
      if isHex c then
        match n with
        | S (S n') => Some (ps, stateInStringEscU (S n') (snoc acc c))
        | _ => Some (ps, stateInString (snoc acc c))
        end
      else None
  | stateNeg acc =>
      if Ascii.eqb c "0" then Some (ps, state0 (snoc acc c))
      else if isDigit19 c then Some (ps, state1 (snoc acc c))
      else None
  | state1 acc =>
      if strconv.isDigit c then Some (ps, state1 (snoc acc c))
      else afterInt ps acc c
  | state0 acc => afterInt ps acc c
  | stateDot acc =>
      if strconv.isDigit c then Some (ps, stateDot0 (snoc acc c)) else None
  | stateDot0 acc =>
      if strconv.isDigit c then Some (ps, stateDot0 (snoc acc c))
      else if Ascii.eqb c "e" || Ascii.eqb c "E"
      then Some (ps, stateE (snoc acc c))
      else endValue (endOfValue (Number acc) ps) c
  | stateE acc =>
      if Ascii.eqb c "+" || Ascii.eqb c "-"
      then Some (ps, stateESign (snoc acc c))
      else if strconv.isDigit c then Some (ps, stateE0 (snoc acc c))
      else None
  | stateESign acc =>
      if strconv.isDigit c then Some (ps, stateE0 (snoc acc c)) else None
  | stateE0 acc =>
      if strconv.isDigit c then Some (ps, stateE0 (snoc acc c))
      else endValue (endOfValue (Number acc) ps) c
  | stateLiteral rest v =>
      match rest with
      | String c' EmptyString =>
          if Ascii.eqb c c' then endOfValue v ps else None
      | String c' rest' =>
          if Ascii.eqb c c' then Some (ps, stateLiteral rest' v) else None
      | EmptyString => None
      end
  end.

(** The loop of [checkValid] over the bytes of the input. *)
Fixpoint scan (sc : scanner) (data : string) : option scanner :=
  match data with
  | EmptyString => Some sc
  | String c data' =>
      match step sc c with
      | Some sc' => scan sc' data'
      | None => None
      end
  end.

(** [s.eof()]: a pending number is ended by a space; then the scanner
    must be at the end of the top-level value. *)
Definition eof (sc : scanner) : option Value :=
  match sc with
  | (_, stateEndTop v) => Some v
  | _ =>
      match step sc " " with
      | Some (_, stateEndTop v) => Some v
      | _ => None
      end
  end.

(** [checkValid(data)], returning the value that was recognised: [None]
    is Go's [*json.SyntaxError]. *)
Definition checkValid (data : string) : option Value :=
  match scan ([], stateBeginValue) data with
  | Some sc => eof sc
  | None => None
  end.

Definition Valid (data : string) : bool :=
  match checkValid data with Some _ => true | None => false end.

(** *** Object keys: [unquote] and [foldName] *)

(** What [unquote] reads: a byte, or the 16-bit unit of a [\uXXXX]. *)
Inductive Unit : Type :=
| UByte (c : ascii)
| UEsc (r : Z).

Definition hexVal (c : ascii) : Z :=
  let b := strconv.byteOf c in
  if b <=? 57 then b - 48 else if b <=? 70 then b - 55 else b - 87.

(** [getu4]: the value of four hexadecimal digits. *)
Definition getu4 (a b c d : ascii) : Z :=
  ((hexVal a * 16 + hexVal b) * 16 + hexVal c) * 16 + hexVal d.

Definition escaped (c : ascii) : ascii :=
  if Ascii.eqb c "b" then "008"
  else if Ascii.eqb c "f" then "012"
  else if Ascii.eqb c "n" then "010"
  else if Ascii.eqb c "r" then "013"
  else if Ascii.eqb c "t" then "009"
  else c.

(** The escapes of a scanned string, resolved one by one.  The scanner
    has checked their form; a form it would have refused ends the
    reading. *)
Fixpoint units (s : string) : list Unit :=
  match s with
  | EmptyString => []
  | String c s' =>
      if Ascii.eqb c backslash then
        match s' with
        | String e s'' =>
            if Ascii.eqb e "u" then
              match s'' with
              | String h1 (String h2 (String h3 (String h4 r))) =>
                  UEsc (getu4 h1 h2 h3 h4) :: units r
              | _ => []
              end
            else UByte (escaped e) :: units s''
        | EmptyString => []
        end
      else UByte c :: units s'
  end.

Definition byte (n : Z) : ascii := ascii_of_N (Z.to_N n).

Definition RuneError : Z := 65533.

(** [utf8.EncodeRune]; a surrogate half is encoded as [RuneError]. *)
Definition EncodeRune (r : Z) : string :=
  let r := if (55296 <=? r) && (r <=? 57343) then RuneError else r in
  if r <? 128 then String (byte r) EmptyString
  else if r <? 2048 then
    String (byte (192 + r / 64)) (String (byte (128 + r mod 64)) EmptyString)
  else if r <? 65536 then
    String (byte (224 + r / 4096))
      (String (byte (128 + (r / 64) mod 64))
         (String (byte (128 + r mod 64)) EmptyString))
  else
    String (byte (240 + r / 262144))
      (String (byte (128 + (r / 4096) mod 64))
         (String (byte (128 + (r / 64) mod 64))
            (String (byte (128 + r mod 64)) EmptyString))).

Definition isSurrogate (r : Z) : bool := (55296 <=? r) && (r <? 57344).

(** [utf16.DecodeRune]. *)
Definition DecodeRune (r1 r2 : Z) : Z :=
  if (55296 <=? r1) && (r1 <? 56320) && (56320 <=? r2) && (r2 <? 57344)
  then (r1 - 55296) * 1024 + (r2 - 56320) + 65536
  else RuneError.

(** A high surrogate combines with an escaped low surrogate right after
    it; alone it becomes [RuneError]. *)
Fixpoint encodeUnits (us : list Unit) : string :=
  match us with
  | [] => EmptyString
  | UByte c :: r => String c (encodeUnits r)
  | UEsc hi :: r =>
      if isSurrogate hi then
        match r with
        | UEsc lo :: r' =>
            if DecodeRune hi lo =? RuneError
            then EncodeRune RuneError ++ encodeUnits r
            else EncodeRune (DecodeRune hi lo) ++ encodeUnits r'
        | _ => EncodeRune RuneError ++ encodeUnits r
        end
      else EncodeRune hi ++ encodeUnits r
  end.

(** [unquote] of the bytes between the quotes.  Bytes outside ASCII are
    copied as they are (Go replaces ill-formed UTF-8 by [RuneError], which
    no field name contains). *)
Definition unquote (raw : string) : string := encodeUnits (units raw).

Definition upper (c : ascii) : ascii :=
  let b := strconv.byteOf c in
  if (97 <=? b) && (b <=? 122) then byte (b - 32) else c.

(** [foldName]: ASCII letters in upper case; the two runes outside ASCII
    whose case orbit meets ASCII, U+017F (bytes C5 BF) and U+212A (bytes
    E2 84 AA), become [S] and [K]. *)
Fixpoint foldName (s : string) : string :=
  match s with
  | EmptyString => EmptyString
  | String c s' =>
      match s' with
      | String c1 s1 =>
          if Ascii.eqb c "197" && Ascii.eqb c1 "191"
          then String "S" (foldName s1)
          else
            match s1 with
            | String c2 s2 =>
                if Ascii.eqb c "226" && Ascii.eqb c1 "132"
                   && Ascii.eqb c2 "170"
                then String "K" (foldName s2)
                else String (upper c) (foldName s')
            | EmptyString => String (upper c) (foldName s')
            end
      | EmptyString => String (upper c) EmptyString
      end
  end.

(** What [Unmarshal] reports; a [*json.UnmarshalTypeError] names the kind
    of JSON value that did not fit. *)
Inductive Error : Type :=
| SyntaxError
| UnmarshalTypeError (value : string)
| UnmarshalerError.

(** [d.saveError]: only the first error is kept. *)
Definition saveError (saved : option Error) (e : Error) : option Error :=
  match saved with
  | Some _ => saved
  | None => Some e
  end.

End json.

(** ** Go's [time] and [net/http], as far as the handler uses them *)

Module time.

(** An instant, in nanoseconds since the Unix epoch. *)
Definition Time : Type := Z.

(** [time.Time{}], midnight of January 1 of the year 1, UTC. *)
Definition zero : Time := - 62135596800 * 10 ^ 9.

(** [Time.UnmarshalJSON]: [null] leaves the time as it is, a JSON string
    is handed to the RFC 3339 parser as written between its
    quotes, anything else is an error ([None]). *)
Definition UnmarshalJSON (parseStrictRFC3339 : string -> option Time)
    (v : json.Value) (t : Time) : option Time :=
  match v with
  | json.Null => Some t
  | json.Str raw => parseStrictRFC3339 raw
  | _ => None
  end.

End time.

Module http.

Definition StatusOK : Z := 200.
Definition StatusBadRequest : Z := 400.

(** What the client receives. *)
Record Response : Type :=
  { StatusCode : Z; ContentType : string; Body : string }.

Definition newline : string := String "010" EmptyString.

(** [http.Error(w, error, code)]: a plain-text reply whose body is the
    error text and a line feed. *)
Definition Error (error : string) (code : Z) : Response :=
  {| StatusCode := code;
     ContentType := "text/plain; charset=utf-8";
     Body := error ++ newline |}.

(** The reply of the server when the handler returns without having
    written anything. *)
Definition unwritten : Response :=
  {| StatusCode := StatusOK; ContentType := EmptyString;
     Body := EmptyString |}.

(** The request as the handler reads it: what [io.ReadAll(r.Body)]
    returns, and the route variables [mux.Vars(r)]. *)
Inductive ReadAll : Type :=
| ReadOk (b : string)
| ReadErr (b : string).

Record Request : Type :=
  { Body_ : ReadAll; Vars : gmap string string }.

End http.

(** ** The route of main.go *)

(** [strings.Join(elems, sep)] for a separator of one byte. *)
Fixpoint Join (elems : list string) (sep : ascii) : string :=
  match elems with
  | [] => EmptyString
  | [s] => s
  | s :: rest => s ++ String sep (Join rest sep)
  end.

Module path.

(** The elements [path.Clean] keeps of a rooted path, in order: an empty
    element and [.] are dropped, [..] drops the element kept before it, if
    there is one.  [kept] holds the elements kept so far, the last first. *)
Fixpoint elements (elems kept : list string) : list string :=
  match elems with
  | [] => rev kept
  | e :: rest =>
      if String.eqb e EmptyString || String.eqb e "." then elements rest kept
      else if String.eqb e ".." then elements rest (tl kept)
      else elements rest (e :: kept)
  end.

(** [path.Clean(p)] for a path [p] that begins with a slash. *)
Definition Clean (p : string) : string :=
  String "/" (Join (elements (strings.Split p "/") []) "/").

End path.

Module mux.

(** The last byte of a string. *)
Fixpoint lastByte (s : string) : option ascii :=
  match s with
  | EmptyString => None
  | String c EmptyString => Some c
  | String _ s' => lastByte s'
  end.

(** [cleanPath(p)]: the canonical path for [p], with the trailing slash
    [path.Clean] removes put back. *)
Definition cleanPath (p : string) : string :=
  match p with
  | EmptyString => "/"
  | String c _ =>
      let p := if Ascii.eqb c "/" then p else String "/" p in
      let np := path.Clean p in
      match lastByte p with
      | Some "/"%char => if String.eqb np "/" then np else np ++ "/"
      | _ => np
      end
  end.

(** [mux.Vars(r)] for a request the router has matched against
    [/sensors/{id}/measures]: the variable is one path segment, not
    empty and without a slash.  The router of [mux.NewRouter()] cleans the
    path first and answers a path that is not clean with a redirect.
    [None]: the handler is not called, the path is not clean or does not
    match. *)
Definition Vars (path : string) : option (gmap string string) :=
  if negb (String.eqb (cleanPath path) path) then None
  else
    match strings.Split path "/" with
    | [root; sensors; id; measures] =>
        if String.eqb root EmptyString && String.eqb sensors "sensors"
           && String.eqb measures "measures"
           && negb (String.eqb id EmptyString)
        then Some {[ "id" := id ]} else None
    | _ => None
    end.

End mux.

(** ** handler.go *)

Definition float64 : Type := strconv.float64.

Record airGradientData : Type :=
  { Id : string;
    Ts : time.Time;
    Wifi : Z;
    C02 : Z;
    PM01 : Z;
    PM02 : Z;
    PM10 : Z;
    PM003 : Z;
    TVOC : Z;
    NOX : Z;
    Temp : float64;
    Hum : Z }.

(** [var data airGradientData]. *)
Definition zeroData : airGradientData :=
  {| Id := EmptyString; Ts := time.zero;
     Wifi := 0; C02 := 0; PM01 := 0; PM02 := 0; PM10 := 0; PM003 := 0;
     TVOC := 0; NOX := 0; Temp := S754_zero false; Hum := 0 |}.

(** The fields [encoding/json] sees in the struct: [Id] is excluded by its
    tag, [Ts] goes by its Go name, the others by their tags. *)
Inductive IntField : Type :=
| fWifi | fC02 | fPM01 | fPM02 | fPM10 | fPM003 | fTVOC | fNOX | fHum.

Inductive Field : Type :=
| fTs
| fInt (i : IntField)
| fTemp.

Definition intName (i : IntField) : string :=
  match i with
  | fWifi => "wifi"
  | fC02 => "rco2"
  | fPM01 => "pm01"
  | fPM02 => "pm02"
  | fPM10 => "pm10"
  | fPM003 => "pm003_count"
  | fTVOC => "tvoc_index"
  | fNOX => "nox_index"
  | fHum => "rhum"
  end.

Definition jsonName (f : Field) : string :=
  match f with
  | fTs => "Ts"
  | fInt i => intName i
  | fTemp => "atmp"
  end.

Definition fields : list Field :=
  [fTs; fInt fWifi; fInt fC02; fInt fPM01; fInt fPM02; fInt fPM10;
   fInt fPM003; fInt fTVOC; fInt fNOX; fTemp; fInt fHum].

(** The field an object key names: the exact name first, then the name
    under case folding. *)
Definition fieldByName (key : string) : option Field :=
  match find (fun f => String.eqb (jsonName f) key) fields with
  | Some f => Some f
  | None =>
      find (fun f => String.eqb (json.foldName (jsonName f))
                                (json.foldName key)) fields
  end.

Definition getInt (i : IntField) (d : airGradientData) : Z :=
  match i with
  | fWifi => Wifi d
  | fC02 => C02 d
  | fPM01 => PM01 d
  | fPM02 => PM02 d
  | fPM10 => PM10 d
  | fPM003 => PM003 d
  | fTVOC => TVOC d
  | fNOX => NOX d
  | fHum => Hum d
  end.

Definition setInt (i : IntField) (n : Z) (d : airGradientData)
  : airGradientData :=
  {| Id := Id d; Ts := Ts d;
     Wifi := match i with fWifi => n | _ => Wifi d end;
     C02 := match i with fC02 => n | _ => C02 d end;
     PM01 := match i with fPM01 => n | _ => PM01 d end;
     PM02 := match i with fPM02 => n | _ => PM02 d end;
     PM10 := match i with fPM10 => n | _ => PM10 d end;
     PM003 := match i with fPM003 => n | _ => PM003 d end;
     TVOC := match i with fTVOC => n | _ => TVOC d end;
     NOX := match i with fNOX => n | _ => NOX d end;
     Temp := Temp d;
     Hum := match i with fHum => n | _ => Hum d end |}.

Definition setTemp (x : float64) (d : airGradientData) : airGradientData :=
  {| Id := Id d; Ts := Ts d; Wifi := Wifi d; C02 := C02 d; PM01 := PM01 d;
     PM02 := PM02 d; PM10 := PM10 d; PM003 := PM003 d; TVOC := TVOC d;
     NOX := NOX d; Temp := x; Hum := Hum d |}.

Definition setTs (t : time.Time) (d : airGradientData) : airGradientData :=
  {| Id := Id d; Ts := t; Wifi := Wifi d; C02 := C02 d; PM01 := PM01 d;
     PM02 := PM02 d; PM10 := PM10 d; PM003 := PM003 d; TVOC := TVOC d;
     NOX := NOX d; Temp := Temp d; Hum := Hum d |}.

Definition setId (s : string) (d : airGradientData) : airGradientData :=
  {| Id := s; Ts := Ts d; Wifi := Wifi d; C02 := C02 d; PM01 := PM01 d;
     PM02 := PM02 d; PM10 := PM10 d; PM003 := PM003 d; TVOC := TVOC d;
     NOX := NOX d; Temp := Temp d; Hum := Hum d |}.

(** The kind a [*json.UnmarshalTypeError] reports for a value. *)
Definition kindOf (v : json.Value) : string :=
  match v with
  | json.Null => "null"
  | json.Bool _ => "bool"
  | json.Number lit => "number " ++ lit
  | json.Str _ => "string"
  | json.Array _ => "array"
  | json.Object _ => "object"
  end.

Section Decoding.

(** The RFC 3339 parser of the [time] package, which depends on the Go
    release the program is built with. *)
Variable parseStrictRFC3339 : string -> option time.Time.

(** [d.object] on [*airGradientData]: the members in the order of the
    input.  A value that does not fit a number field is recorded with
    [saveError] and decoding goes on; an error of [Time.UnmarshalJSON]
    ends it at once.  A key that names no field is skipped. *)
Fixpoint object (ms : list (string * json.Value)) (data : airGradientData)
    (saved : option json.Error) : airGradientData * option json.Error :=
  match ms with
  | [] => (data, saved)
  | (key, v) :: ms' =>
      match fieldByName (json.unquote key) with
      | None => object ms' data saved
      | Some fTs =>
          match time.UnmarshalJSON parseStrictRFC3339 v (Ts data) with
          | Some t => object ms' (setTs t data) saved
          | None => (data, Some json.UnmarshalerError)
          end
      | Some (fInt i) =>
          match v with
          | json.Null => object ms' data saved
          | json.Number lit =>
              match strconv.ParseInt lit with
              | Some n => object ms' (setInt i n data) saved
              | None =>
                  object ms' data
                    (json.saveError saved
                       (json.UnmarshalTypeError (kindOf v)))
              end
          | _ =>
              object ms' data
                (json.saveError saved (json.UnmarshalTypeError (kindOf v)))
          end
      | Some fTemp =>
          match v with
          | json.Null => object ms' data saved
          | json.Number lit =>
              match strconv.ParseFloat lit with
              | Some x => object ms' (setTemp x data) saved
              | None =>
                  object ms' data
                    (json.saveError saved
                       (json.UnmarshalTypeError (kindOf v)))
              end
          | _ =>
              object ms' data
                (json.saveError saved (json.UnmarshalTypeError (kindOf v)))
          end
      end
  end.

(** [d.value] on [*airGradientData]: [null] stores nothing, an object is
    decoded member by member, every other value is a type error. *)
Definition value (v : json.Value) (data : airGradientData)
  : airGradientData * option json.Error :=
  match v with
  | json.Null => (data, None)
  | json.Object ms => object ms data None
  | _ => (data, Some (json.UnmarshalTypeError (kindOf v)))
  end.

(** [json.Unmarshal(b, &data)]: the struct after the call, and the
    error returned. *)
Definition Unmarshal (b : string) (data : airGradientData)
  : airGradientData * option json.Error :=
  match json.checkValid b with
  | None => (data, Some json.SyntaxError)
  | Some v => value v data
  end.

(** What a call of the handler leaves behind: the reply, the channel,
    and the messages logged at error level. *)
Record Served : Type :=
  { response : http.Response;
    channel : list airGradientData;
    logged : list string }.

(** The identifier after the colon of the route variable. *)
Definition instanceId (vars : gmap string string) : string :=
  match vars !! "id" with
  | Some id =>
      let splitted := strings.Split id ":" in
      if (length splitted =? 2)%nat then nth 1 splitted "null" else "null"
  | None => "null"
  end.

(** [mainHandler(dataChannel)(w, r)], with [now] the reading of
    [time.Now()].  The send on the channel is taken at its completion:
    the reading joins the channel behind those already in it. *)
Definition mainHandler (dataChannel : list airGradientData)
    (r : http.Request) (now : time.Time) : Served :=
  match http.Body_ r with
  | http.ReadErr _ =>
      let errMsg := "cannot read body" in
      {| response := http.Error errMsg http.StatusBadRequest;
         channel := dataChannel;
         logged := [errMsg] |}
  | http.ReadOk b =>
      match Unmarshal b zeroData with
      | (_, Some _) =>
          let errMsg := "failed to unmarshal" in
          {| response := http.Error errMsg http.StatusBadRequest;
             channel := dataChannel;
             logged := [errMsg] |}
      | (data, None) =>
          let data := setId (instanceId (http.Vars r)) data in
          let data := setTs now data in
          {| response := http.unwritten;
             channel := dataChannel ++ [data];
             logged := [] |}
      end
  end.

End Decoding.

(** ** The InfluxDB client, as far as main.go uses it *)

Module influx.

(** A field value of a point: the [interface{}] holds an [int] or a
    [float64]. *)
Inductive FieldValue : Type :=
| Int (n : Z)
| Float (x : float64).

Record Point : Type :=
  { Name : string;
    Tags : gmap string string;
    Fields : gmap string FieldValue;
    Time : time.Time }.

Definition NewPoint (measurement : string) (tags : gmap string string)
    (fields : gmap string FieldValue) (ts : time.Time) : Point :=
  {| Name := measurement; Tags := tags; Fields := fields; Time := ts |}.

(** The two options main.go sets on [influx.DefaultOptions()]; the flush
    interval is in milliseconds. *)
Record Options : Type :=
  { FlushInterval_ms : Z; InsecureSkipVerify : bool }.

Record Client : Type :=
  { ServerURL : string; AuthToken : string; Opts : Options }.

(** [client.WriteAPI(org, bucket)], with the points handed to it so far. *)
Record WriteAPI : Type :=
  { Org : string; Bucket_ : string; Written : list Point }.

Definition NewClientWithOptions (serverURL authToken : string)
    (options : Options) : Client :=
  {| ServerURL := serverURL; AuthToken := authToken; Opts := options |}.

Definition NewWriteAPI (org bucket : string) : WriteAPI :=
  {| Org := org; Bucket_ := bucket; Written := [] |}.

(** [writeAPI.WritePoint(point)]. *)
Definition WritePoint (w : WriteAPI) (p : Point) : WriteAPI :=
  {| Org := Org w; Bucket_ := Bucket_ w; Written := Written w ++ [p] |}.

End influx.

(** ** main.go *)

Record Server : Type := { ListenAddr : string }.

Record InfluxDB : Type :=
  { Address : string;
    Username : string;
    Password : string;
    MeasurementPrefix : string;
    Database : string;
    RetentionPolicy : string;
    Token : string;
    Organization : string;
    Bucket : string;
    SkipVerifySsl : bool;
    FlushInterval : Z }.

Record Configuration : Type :=
  { Server_ : Server; InfluxDB_ : InfluxDB }.

(** Go's [uint] holds the values below [2 ^ 64]; its arithmetic wraps. *)
Definition uintSize : Z := 64.
Definition uint (n : Z) : Z := n mod 2 ^ uintSize.
Definition isUint (n : Z) : Prop := 0 <= n < 2 ^ uintSize.

(** [config.InfluxDB.FlushInterval = n]. *)
Definition setFlushInterval (n : Z) (config : Configuration)
  : Configuration :=
  let i := InfluxDB_ config in
  {| Server_ := Server_ config;
     InfluxDB_ :=
       {| Address := Address i; Username := Username i;
          Password := Password i;
          MeasurementPrefix := MeasurementPrefix i;
          Database := Database i; RetentionPolicy := RetentionPolicy i;
          Token := Token i; Organization := Organization i;
          Bucket := Bucket i; SkipVerifySsl := SkipVerifySsl i;
          FlushInterval := n |} |}.

Inductive InfluxWriteConfigError : Type :=
| influxWriteConfigError.

Definition Error (e : InfluxWriteConfigError) : string :=
  "must configure at least one of bucket or database/retention policy".

Definition nonEmpty (s : string) : bool := negb (String.eqb s EmptyString).

(** The credential [InfluxConnect] passes to the client. *)
Definition auth (config : Configuration) : string :=
  let i := InfluxDB_ config in
  if nonEmpty (Token i) then Token i
  else if nonEmpty (Username i) && nonEmpty (Password i)
  then Username i ++ ":" ++ Password i
  else EmptyString.

(** The write destination, or the error of a configuration without one. *)
Definition writeDest (config : Configuration)
  : InfluxWriteConfigError + string :=
  let i := InfluxDB_ config in
  if nonEmpty (Bucket i) then inr (Bucket i)
  else if nonEmpty (Database i) && nonEmpty (RetentionPolicy i)
  then inr (Database i ++ "/" ++ RetentionPolicy i)
  else inl influxWriteConfigError.

(** [InfluxConnect(config)]: the configuration behind the pointer after
    the call, and the client with its write API, or the error. *)
Definition InfluxConnect (config : Configuration)
  : Configuration
    * (InfluxWriteConfigError + influx.Client * influx.WriteAPI) :=
  let auth := auth config in
  match writeDest config with
  | inl e => (config, inl e)
  | inr writeDest =>
      let config :=
        if FlushInterval (InfluxDB_ config) =? 0
        then setFlushInterval 30 config else config in
      let i := InfluxDB_ config in
      let options :=
        {| influx.FlushInterval_ms := uint (1000 * FlushInterval i);
           influx.InsecureSkipVerify := SkipVerifySsl i |} in
      let client := influx.NewClientWithOptions (Address i) auth options in
      let writeAPI := influx.NewWriteAPI (Organization i) writeDest in
      (config, inr (client, writeAPI))
  end.

(** The point the writer loop builds from a reading. *)
Definition influxPoint (dataPoint : airGradientData) : influx.Point :=
  influx.NewPoint
    "air_quality"
    {[ "id" := Id dataPoint ]}
    (list_to_map
       [ ("wifi", influx.Int (Wifi dataPoint));
         ("co2", influx.Int (C02 dataPoint));
         ("pm1", influx.Int (PM01 dataPoint));
         ("pm25", influx.Int (PM02 dataPoint));
         ("pm10", influx.Int (PM10 dataPoint));
         ("pm003", influx.Int (PM003 dataPoint));
         ("tvoc", influx.Int (TVOC dataPoint));
         ("nox", influx.Int (NOX dataPoint));
         ("temp", influx.Float (Temp dataPoint));
         ("rel_humidity", influx.Int (Hum dataPoint)) ])
    (Ts dataPoint).

(** The writer goroutine, [for dataPoint := range dataCh], over the
    readings the channel delivers until it is closed. *)
Fixpoint writer (dataCh : list airGradientData) (writeAPI : influx.WriteAPI)
  : influx.WriteAPI :=
  match dataCh with
  | [] => writeAPI
  | dataPoint :: rest =>
      writer rest (influx.WritePoint writeAPI (influxPoint dataPoint))
  end.

(** What [main] does, in the order of its statements. *)
Inductive Event : Type :=
| Fatal (op msg : string)
| GoErrorMonitor
| SignalNotify
| HandleFunc (route : string)
| GoWriter
| Info (msg : string)
| GoListenAndServe (addr : string)
| ReceiveSignal (sig : string)
| Flush
| Close.

(** [main()]: [loaded] is the outcome of [LoadConfiguration], [sig] the
    signal that ends the wait.  [log.Fatal] exits the process, so nothing
    follows a [Fatal] event. *)
Definition main (loaded : option Configuration) (sig : string)
  : list Event :=
  match loaded with
  | None => [Fatal "main.LoadConfiguration" "failed to load configuration"]
  | Some config =>
      match InfluxConnect config with
      | (_, inl _) =>
          [Fatal "main" "failed to initialize InfluxDB connection"]
      | (config, inr _) =>
          let addr := ListenAddr (Server_ config) in
          [ GoErrorMonitor;
            SignalNotify;
            HandleFunc "/sensors/{id}/measures";
            GoWriter;
            Info ("listening on " ++ addr);
            GoListenAndServe addr;
            ReceiveSignal sig;
            Info ("caught signal " ++ sig ++ ", flushing data to InfluxDB");
            Flush;
            Flush;
            Close ]
      end
  end.

(** The client [main] connects under a configuration, and its write API
    after the writer has taken the readings of [dataCh]; nothing when the
    connection fails. *)
Definition deliver (config : Configuration) (dataCh : list airGradientData)
  : option (influx.Client * influx.WriteAPI) :=
  match InfluxConnect config with
  | (_, inl _) => None
  | (_, inr (client, writeAPI)) => Some (client, writer dataCh writeAPI)
  end.

(** ** Notions the statements use *)

(** The number of colons in a path segment. *)
Definition colons (s : string) : nat := strings.Count s ":".

#[global] Instance IntField_eq_dec : EqDecision IntField.
Proof. solve_decision. Defined.

#[global] Instance Field_eq_dec : EqDecision Field.
Proof. solve_decision. Defined.

Definition isNull (v : json.Value) : bool :=
  match v with json.Null => true | _ => false end.

(** The member [m] of an object names the field [f], as the decoder
    matches keys. *)
Definition names (f : Field) (m : string * json.Value) : bool :=
  bool_decide (fieldByName (json.unquote (fst m)) = Some f).

(** The value an object submits for a field: that of the last member
    naming the field whose value is not [null]. *)
Definition submitted (f : Field) (ms : list (string * json.Value))
  : option json.Value :=
  last (map snd (List.filter (fun m => names f m && negb (isNull (snd m))) ms)).

(** A member the decoder stores or skips without an error. *)
Definition fits (parseStrictRFC3339 : string -> option time.Time)
    (m : string * json.Value) : bool :=
  match fieldByName (json.unquote (fst m)) with
  | None => true
  | Some fTs =>
      match time.UnmarshalJSON parseStrictRFC3339 (snd m) time.zero with
      | Some _ => true
      | None => false
      end
  | Some (fInt _) =>
      match snd m with
      | json.Null => true
      | json.Number lit =>
          match strconv.ParseInt lit with Some _ => true | None => false end
      | _ => false
      end
  | Some fTemp =>
      match snd m with
      | json.Null => true
      | json.Number lit =>
          match strconv.ParseFloat lit with Some _ => true | None => false end
      | _ => false
      end
  end.

(** A value that fits the struct: [null], or an object all of whose
    members fit. *)
Definition accepts (parseStrictRFC3339 : string -> option time.Time)
    (v : json.Value) : bool :=
  match v with
  | json.Null => true
  | json.Object ms => forallb (fits parseStrictRFC3339) ms
  | _ => false
  end.

(** Go string literals are written here with an apostrophe where Go has a
    double quote. *)
Fixpoint dq (s : string) : string :=
  match s with
  | EmptyString => EmptyString
  | String c s' => String (if Ascii.eqb c "'" then json.quote else c) (dq s')
  end.

(** The router in front of the handler: a request whose path is clean and
    matches the route is served by [mainHandler] with the route variables;
    for any other path the handler is not called ([None]) and the router
    answers itself, with a redirect to the clean path or with 404. *)
Definition ServeHTTP (parseStrictRFC3339 : string -> option time.Time)
    (dataChannel : list airGradientData) (path : string)
    (body : http.ReadAll) (now : time.Time) : option Served :=
  match mux.Vars path with
  | Some vars =>
      Some (mainHandler parseStrictRFC3339 dataChannel
              {| http.Body_ := body; http.Vars := vars |} now)
  | None => None
  end.

(** A stand-in for the RFC 3339 parser that knows one timestamp, to run
    the examples. *)
Definition sampleRFC3339 (s : string) : option time.Time :=
  if String.eqb s "2006-01-02T15:04:05Z" then Some 1136214245000000000
  else None.

(** The example of the specification. *)
Definition examplePath : string := "/sensors/airgradient:office-1/measures".

Definition exampleBody : string :=
  dq "{'wifi':-64,'rco2':419,'pm01':4,'pm02':7,'pm10':7,'pm003_count':834,'tvoc_index':3,'nox_index':2,'atmp':32.07,'rhum':56}".

(** The handler answered 400 and left the channel as it was. *)
Definition rejected (s : Served) (dataChannel : list airGradientData)
  : Prop :=
  http.StatusCode (response s) = http.StatusBadRequest
  /\ channel s = dataChannel.

Definition unreadable (r : http.Request) : bool :=
  match http.Body_ r with http.ReadErr _ => true | http.ReadOk _ => false end.

(** The body was read and is not well-formed JSON. *)
Definition malformed (r : http.Request) : bool :=
  match http.Body_ r with
  | http.ReadErr _ => false
  | http.ReadOk b => negb (json.Valid b)
  end.

(** The body cannot be read, is not well-formed JSON, or is well-formed
    JSON whose value does not fit the struct. *)
Definition refused (parseStrictRFC3339 : string -> option time.Time)
    (r : http.Request) : bool :=
  match http.Body_ r with
  | http.ReadErr _ => true
  | http.ReadOk b =>
      match json.checkValid b with
      | None => true
      | Some v => negb (accepts parseStrictRFC3339 v)
      end
  end.

(** The request of the specification's example, and the struct its body
    decodes to. *)
Definition exampleRequest : http.Request :=
  {| http.Body_ := http.ReadOk exampleBody;
     http.Vars := {[ "id" := "airgradient:office-1" ]} |}.

Definition exampleData : airGradientData :=
  {| Id := EmptyString; Ts := time.zero;
     Wifi := -64; C02 := 419; PM01 := 4; PM02 := 7; PM10 := 7; PM003 := 834;
     TVOC := 3; NOX := 2;
     Temp := strconv.nearest
               {| strconv.neg := false; strconv.mant := 3207;
                  strconv.exp10 := -2 |};
     Hum := 56 |}.

(** A well-formed body whose [wifi] is a string. *)
Definition misfitRequest : http.Request :=
  {| http.Body_ := http.ReadOk (dq "{'wifi':'x'}");
     http.Vars := {[ "id" := "airgradient:office-1" ]} |}.

(** A body that brings a timestamp of its own. *)
Definition stampedBody : string := dq "{'Ts':'2006-01-02T15:04:05Z','wifi':1}".

Definition stampedRequest : http.Request :=
  {| http.Body_ := http.ReadOk stampedBody;
     http.Vars := {[ "id" := "airgradient:office-1" ]} |}.

Definition receipt : time.Time := 1700000000000000000.

(** The configuration with another measurement prefix. *)
Definition setMeasurementPrefix (prefix : string) (config : Configuration)
  : Configuration :=
  let i := InfluxDB_ config in
  {| Server_ := Server_ config;
     InfluxDB_ :=
       {| Address := Address i; Username := Username i;
          Password := Password i;
          MeasurementPrefix := prefix;
          Database := Database i; RetentionPolicy := RetentionPolicy i;
          Token := Token i; Organization := Organization i;
          Bucket := Bucket i; SkipVerifySsl := SkipVerifySsl i;
          FlushInterval := FlushInterval i |} |}.

(** The configuration of [config.yaml.example], and variants of it. *)
Definition exampleConfig : Configuration :=
  {| Server_ := {| ListenAddr := "0.0.0.0:19999" |};
     InfluxDB_ :=
       {| Address := "https://127.0.0.1:8086";
          Username := "myuser"; Password := "mypass";
          MeasurementPrefix := "prefix_";
          Database := "mydb"; RetentionPolicy := "autogen";
          Token := "mytoken"; Organization := "myorg";
          Bucket := "mybucket"; SkipVerifySsl := false;
          FlushInterval := 30 |} |}.

Definition withInflux (f : InfluxDB -> InfluxDB) (config : Configuration)
  : Configuration :=
  {| Server_ := Server_ config; InfluxDB_ := f (InfluxDB_ config) |}.

Definition v1Config : Configuration :=
  withInflux
    (fun i =>
       {| Address := Address i; Username := Username i;
          Password := Password i;
          MeasurementPrefix := MeasurementPrefix i;
          Database := Database i; RetentionPolicy := RetentionPolicy i;
          Token := EmptyString; Organization := Organization i;
          Bucket := EmptyString; SkipVerifySsl := SkipVerifySsl i;
          FlushInterval := 0 |})
    exampleConfig.

Definition noDestConfig : Configuration :=
  withInflux
    (fun i =>
       {| Address := Address i; Username := Username i;
          Password := Password i;
          MeasurementPrefix := MeasurementPrefix i;
          Database := Database i; RetentionPolicy := EmptyString;
          Token := Token i; Organization := Organization i;
          Bucket := EmptyString; SkipVerifySsl := SkipVerifySsl i;
          FlushInterval := FlushInterval i |})
    exampleConfig.

(** A flush interval whose thousandfold does not fit a [uint]. *)
Definition longInterval : Z := 18446744073709552.

Definition longConfig : Configuration := setFlushInterval longInterval exampleConfig.

(** [InfluxConnect] returned the configuration error. *)
Definition connectFails (config : Configuration) : Prop :=
  snd (InfluxConnect config) = inl influxWriteConfigError.

(** No member of the object names the field. *)
Definition omitted (f : Field) (ms : list (string * json.Value)) : bool :=
  forallb (fun m => negb (names f m)) ms.

(** The name under which the writer stores each integer field. *)
Definition storeName (i : IntField) : string :=
  match i with
  | fWifi => "wifi"
  | fC02 => "co2"
  | fPM01 => "pm1"
  | fPM02 => "pm25"
  | fPM10 => "pm10"
  | fPM003 => "pm003"
  | fTVOC => "tvoc"
  | fNOX => "nox"
  | fHum => "rel_humidity"
  end.

(** The write the specification's example expects, at receipt time [now]. *)
Definition exampleWrite (now : time.Time) : influx.Point :=
  {| influx.Name := "air_quality";
     influx.Tags := {[ "id" := "office-1" ]};
     influx.Fields :=
       list_to_map
         [ ("wifi", influx.Int (-64)); ("co2", influx.Int 419);
           ("pm1", influx.Int 4); ("pm25", influx.Int 7);
           ("pm10", influx.Int 7); ("pm003", influx.Int 834);
           ("tvoc", influx.Int 3); ("nox", influx.Int 2);
           ("temp",
            influx.Float
              (strconv.nearest
                 {| strconv.neg := false; strconv.mant := 3207;
                    strconv.exp10 := -2 |}));
           ("rel_humidity", influx.Int 56) ];
     influx.Time := now |}.

(** ** The round trip of the specification *)














(** The string begins with a decimal digit. *)
Definition headDigit (s : string) : bool :=
  match s with
  | String c _ => strconv.isDigit c
  | EmptyString => false
  end.

(** Requests served one after another on the same channel, each with its
    own receipt time. *)
Definition serveAll (parseStrictRFC3339 : string -> option time.Time)
    (rs : list (http.Request * time.Time))
    (dataChannel : list airGradientData) : list airGradientData :=
  fold_left
    (fun ch rt => channel (mainHandler parseStrictRFC3339 ch (fst rt) (snd rt)))
    rs dataChannel.

(** ** Further notions: bodies, readings, routes *)

(** Every byte of the string is JSON white space. *)
Fixpoint allSpace (s : string) : bool :=
  match s with
  | EmptyString => true
  | String c s' => json.isSpace c && allSpace s'
  end.

(** The request with another body. *)
Definition withBody (b : string) (r : http.Request) : http.Request :=
  {| http.Body_ := http.ReadOk b; http.Vars := http.Vars r |}.

(** A zero or a finite number: neither an infinity nor a NaN. *)
Definition isFinite (x : float64) : bool :=
  match x with
  | S754_zero _ | S754_finite _ _ _ => true
  | _ => false
  end.

(** A reading whose integers fit Go's [int] and whose temperature is
    finite. *)
Definition storable (p : airGradientData) : Prop :=
  (forall i, - 2 ^ 63 <= getInt i p < 2 ^ 63) /\ isFinite (Temp p) = true.

(** A member the decoder passes over: its key names no field, or its value
    is [null]. *)
Definition passedOver (m : string * json.Value) : bool :=
  match fieldByName (json.unquote (fst m)) with
  | None => true
  | Some _ => isNull (snd m)
  end.

(** The literal has a fraction or an exponent. *)
Definition hasFractionOrExponent (lit : string) : bool :=
  negb ((strings.Count lit "." =? 0)%nat && (strings.Count lit "e" =? 0)%nat
        && (strings.Count lit "E" =? 0)%nat).

(** A JSON value other than [null] and a string. *)
Definition notNullNorString (v : json.Value) : bool :=
  match v with
  | json.Null | json.Str _ => false
  | _ => true
  end.

(** The path of the route for an [id] segment. *)
Definition routePath (id : string) : string :=
  "/sensors/" ++ id ++ "/measures".

(** ** The channel between the handlers and the writer *)

(** [make(chan airGradientData, 1)]. *)
Definition capacity : nat := 1.

(** The buffer of [dataCh], the reading the writer goroutine has received
    from it and not yet written, and the write API of the store client. *)
Record Pipeline : Type :=
  { dataCh : list airGradientData;
    held : option airGradientData;
    writeAPI : influx.WriteAPI }.

(** What completes next: a call of the handler; the receive of the
    writer's [range dataCh], which frees the slot of the buffer; or the
    writer's [WritePoint] for the reading it has received. *)
Inductive Action : Type :=
| Serve (r : http.Request) (now : time.Time)
| Receive
| Write.

(** One action.  A call of the handler completes when it sends nothing or
    its send finds room in the buffer; the writer receives when it holds
    no reading and the buffer holds one; it writes the reading it holds.
    [None]: the action cannot complete in this state, the goroutine stays
    blocked or is at another statement. *)
Definition act (parseStrictRFC3339 : string -> option time.Time)
    (a : Action) (st : Pipeline) : option Pipeline :=
  match a with
  | Serve r now =>
      let s := mainHandler parseStrictRFC3339 (dataCh st) r now in
      if (length (channel s) <=? capacity)%nat
      then Some {| dataCh := channel s; held := held st;
                   writeAPI := writeAPI st |}
      else None
  | Receive =>
      match held st, dataCh st with
      | None, dataPoint :: rest =>
          Some {| dataCh := rest; held := Some dataPoint;
                  writeAPI := writeAPI st |}
      | _, _ => None
      end
  | Write =>
      match held st with
      | Some dataPoint =>
          Some {| dataCh := dataCh st; held := None;
                  writeAPI :=
                    influx.WritePoint (writeAPI st) (influxPoint dataPoint) |}
      | None => None
      end
  end.

(** Actions completing one after another. *)
Fixpoint run (parseStrictRFC3339 : string -> option time.Time)
    (acts : list Action) (st : Pipeline) : option Pipeline :=
  match acts with
  | [] => Some st
  | a :: acts' =>
      match act parseStrictRFC3339 a st with
      | Some st' => run parseStrictRFC3339 acts' st'
      | None => None
      end
  end.

(** The handler calls among the actions, in order. *)
Fixpoint served (acts : list Action) : list (http.Request * time.Time) :=
  match acts with
  | [] => []
  | Serve r now :: acts' => (r, now) :: served acts'
  | _ :: acts' => served acts'
  end.

(** The reading the writer holds, as a list. *)
Definition holding (st : Pipeline) : list airGradientData :=
  match held st with
  | Some dataPoint => [dataPoint]
  | None => []
  end.

(** An action of the writer goroutine. *)
Definition ofWriter (a : Action) : bool :=
  match a with
  | Serve _ _ => false
  | Receive | Write => true
  end.

(** [n] iterations of the writer loop, with no handler call in between. *)
Definition iterations (n : nat) : list Action :=
  concat (repeat [Receive; Write] n).

(** In the trace the event [a] comes before the event [b]. *)
Definition before (a b : Event) (t : list Event) : Prop :=
  exists l1 l2 l3, t = (l1 ++ a :: l2 ++ b :: l3)%list.

(** The trace holds a listener. *)
Definition listens (t : list Event) : Prop :=
  exists addr, In (GoListenAndServe addr) t.

(** Example inputs. *)
Definition paddedBody : string :=
  String "010"
    (String " " (exampleBody ++ String "013" (String "010" EmptyString))).

Definition fractionBody : string := dq "{'wifi':1.0}".

Definition numericTsBody : string := dq "{'ts':1700000000}".

(** No byte of the string is JSON white space. *)
Fixpoint noSpace (s : string) : bool :=
  match s with
  | EmptyString => true
  | String c s' => negb (json.isSpace c) && noSpace s'
  end.

(** The rest of a literal the scanner is inside of holds no white space. *)
Definition literalOK (st : json.Step) : bool :=
  match st with
  | json.stateLiteral rest _ => noSpace rest
  | _ => true
  end.

(** The scanner is after a complete value. *)
Definition afterAValue (st : json.Step) : bool :=
  match st with
  | json.stateEndTop _ | json.stateEndValue => true
  | _ => false
  end.

(** A schedule of three requests, the second refused; the third is sent
    while the writer still holds the reading of the first. *)
Definition exampleSchedule : list Action :=
  [ Serve exampleRequest receipt; Receive; Serve misfitRequest receipt;
    Serve stampedRequest (receipt + 1); Write; Receive; Write ].

Definition freshAPI : influx.WriteAPI :=
  influx.NewWriteAPI "myorg" "mybucket".

(** The state in which the writer holds one reading and the buffer
    another. *)
Definition busy : Pipeline :=
  {| dataCh := [exampleData]; held := Some exampleData;
     writeAPI := freshAPI |}.

(** * Properties *)

(** ** Splitting at a separator *)

Section Split.

Variable sep : ascii.

Lemma cutAt_None (s : string) :
  strings.cutAt s sep = None <-> strings.Count s sep = 0%nat.
Proof.
  induction s as [|c s IH]; simpl; [tauto|].
  destruct (Ascii.eqb c sep); [split; discriminate|].
  destruct (strings.cutAt s sep) as [[a rest]|].
  - split; [discriminate|]. intros H. apply IH in H. discriminate.
  - split; [intros _; apply IH; reflexivity | reflexivity].
Qed.

Lemma cutAt_Some (s a rest : string) :
  strings.cutAt s sep = Some (a, rest) ->
  s = a ++ String sep rest
  /\ strings.Count a sep = 0%nat
  /\ strings.Count s sep = S (strings.Count rest sep).
Proof.
  revert a. induction s as [|c s IH]; simpl; intros a H; [discriminate|].
  destruct (Ascii.eqb c sep) eqn:E.
  - apply Ascii.eqb_eq in E. inversion H; subst. simpl. auto.
  - destruct (strings.cutAt s sep) as [[a' rest']|]; [|discriminate].
    inversion H; subst. destruct (IH a' eq_refl) as (-> & Ha & Hc).
    simpl. rewrite E. auto.
Qed.

Lemma cutAt_app (a b : string) :
  strings.Count a sep = 0%nat ->
  strings.cutAt (a ++ String sep b) sep = Some (a, b).
Proof.
  induction a as [|c a IH]; simpl; intros H.
  - rewrite Ascii.eqb_refl. reflexivity.
  - destruct (Ascii.eqb c sep); [discriminate|]. rewrite IH; auto.
Qed.

Lemma Count_app (a b : string) :
  strings.Count (a ++ b) sep
  = (strings.Count a sep + strings.Count b sep)%nat.
Proof.
  induction a as [|c a IH]; simpl; [reflexivity|].
  destruct (Ascii.eqb c sep); simpl; rewrite IH; reflexivity.
Qed.

(** [Split] returns one piece more than there are separators. *)
Lemma genSplit_length (n : nat) (s : string) :
  strings.Count s sep = n ->
  length (strings.genSplit n s sep) = S n.
Proof.
  revert s. induction n as [|n IH]; intros s H; simpl; [reflexivity|].
  destruct (strings.cutAt s sep) as [[a rest]|] eqn:E.
  - apply cutAt_Some in E as (_ & _ & Hc). simpl. f_equal. apply IH.
    congruence.
  - apply cutAt_None in E. congruence.
Qed.

Lemma Split_length (s : string) :
  length (strings.Split s sep) = S (strings.Count s sep).
Proof. apply genSplit_length. reflexivity. Qed.

Lemma Split_one (s : string) :
  strings.Count s sep = 0%nat -> strings.Split s sep = [s].
Proof. unfold strings.Split. intros ->. reflexivity. Qed.

Lemma Split_cons (a b : string) :
  strings.Count a sep = 0%nat ->
  strings.Split (a ++ String sep b) sep = a :: strings.Split b sep.
Proof.
  intros Ha. unfold strings.Split.
  rewrite Count_app, Ha. simpl. rewrite Ascii.eqb_refl. simpl.
  rewrite cutAt_app by assumption. reflexivity.
Qed.

(** Two pieces come from exactly one separator, and they are what stands
    before and after it. *)
Lemma Split_two (s a b : string) :
  strings.Split s sep = [a; b] <->
  s = a ++ String sep b
  /\ strings.Count a sep = 0%nat /\ strings.Count b sep = 0%nat.
Proof.
  split.
  - intros H. pose proof (Split_length s) as L. rewrite H in L.
    simpl in L. injection L as L.
    unfold strings.Split in H. rewrite <- L in H. simpl in H.
    destruct (strings.cutAt s sep) as [[a' rest]|] eqn:E;
      [|discriminate].
    inversion H; subst.
    apply cutAt_Some in E as (-> & Ha & Hc). repeat split; auto.
    rewrite <- L in Hc. injection Hc as Hc. auto.
  - intros (-> & Ha & Hb). rewrite Split_cons by assumption.
    rewrite Split_one by assumption. reflexivity.
Qed.

End Split.

(** ** The sensor identifier *)

Lemma instanceId_absent (vars : gmap string string) :
  vars !! "id" = None -> instanceId vars = "null".
Proof. unfold instanceId. intros ->. reflexivity. Qed.

Lemma instanceId_pair (vars : gmap string string) (a b : string) :
  vars !! "id" = Some (a ++ ":" ++ b) ->
  colons a = 0%nat -> colons b = 0%nat ->
  instanceId vars = b.
Proof.
  unfold instanceId, colons. intros -> Ha Hb.
  assert (E : strings.Split (a ++ ":" ++ b) ":" = [a; b])
    by (apply Split_two; auto).
  cbv zeta. rewrite E. reflexivity.
Qed.

Lemma instanceId_other (vars : gmap string string) (id : string) :
  vars !! "id" = Some id -> colons id <> 1%nat ->
  instanceId vars = "null".
Proof.
  unfold instanceId, colons. intros -> H. cbv zeta.
  rewrite Split_length.
  destruct (Nat.eqb_spec (S (strings.Count id ":")) 2) as [E|E];
    [|reflexivity].
  exfalso. apply H. lia.
Qed.

(** With exactly two pieces the identifier is the second, whatever it is. *)
Lemma instanceId_second (vars : gmap string string) (id a b : string) :
  vars !! "id" = Some id -> strings.Split id ":" = [a; b] ->
  instanceId vars = b.
Proof. unfold instanceId. intros -> E. cbv zeta. rewrite E. reflexivity. Qed.

(** The identifier is empty exactly for a segment that ends in its only
    colon. *)
Lemma instanceId_empty_iff (vars : gmap string string) :
  instanceId vars = EmptyString <->
  exists a, vars !! "id" = Some (a ++ ":") /\ colons a = 0%nat.
Proof.
  split.
  - unfold instanceId. destruct (vars !! "id") as [id|]; [|discriminate].
    cbv zeta. intros H.
    destruct (strings.Split id ":") as [|a [|b [|c l]]] eqn:E;
      simpl in H; try discriminate.
    subst b. apply Split_two in E as (-> & Ha & _). exists a. auto.
  - intros (a & H & Ha).
    apply (instanceId_pair vars a EmptyString); auto.
Qed.

(** ** Decoding an object into the struct *)

Lemma getInt_setInt (i j : IntField) (n : Z) (d : airGradientData) :
  getInt i (setInt j n d) = if decide (i = j) then n else getInt i d.
Proof. destruct i, j; reflexivity. Qed.

Lemma submitted_cons (f : Field) (m : string * json.Value)
    (ms : list (string * json.Value)) :
  submitted f (m :: ms)
  = match submitted f ms with
    | Some v => Some v
    | None => if names f m && negb (isNull (snd m)) then Some (snd m) else None
    end.
Proof.
  unfold submitted. simpl.
  destruct (names f m && negb (isNull (snd m)));
    [|destruct (last _); reflexivity].
  simpl. rewrite last_cons.
  destruct (last _); reflexivity.
Qed.

Lemma names_field (f g : Field) (m : string * json.Value) :
  fieldByName (json.unquote (fst m)) = Some g ->
  names f m = bool_decide (g = f).
Proof.
  unfold names. intros ->.
  apply bool_decide_ext. split; congruence.
Qed.

Lemma names_none (f : Field) (m : string * json.Value) :
  fieldByName (json.unquote (fst m)) = None -> names f m = false.
Proof. unfold names. intros ->. reflexivity. Qed.

Section Decoded.

Variable parse : string -> option time.Time.

(** Once an error is saved, the decoder returns an error. *)
Lemma object_saved (ms : list (string * json.Value)) (d : airGradientData)
    (e : json.Error) :
  snd (object parse ms d (Some e)) <> None.
Proof.
  revert d. induction ms as [|[k v] ms IH]; intros d; simpl; [discriminate|].
  destruct (fieldByName (json.unquote k)) as [[|i|]|]; auto.
  - destruct (time.UnmarshalJSON parse v (Ts d)); [auto | discriminate].
  - destruct v; auto. destruct (strconv.ParseInt lit); auto.
  - destruct v; auto. destruct (strconv.ParseFloat lit); auto.
Qed.

Lemma UnmarshalJSON_time (v : json.Value) (t t' : time.Time) :
  time.UnmarshalJSON parse v t = None ->
  time.UnmarshalJSON parse v t' = None.
Proof. destruct v; simpl; auto; discriminate. Qed.

(** The decoder returns no error exactly when every member fits. *)
Lemma object_fits (ms : list (string * json.Value)) (d : airGradientData) :
  snd (object parse ms d None) = None <-> forallb (fits parse) ms = true.
Proof.
  revert d. induction ms as [|[k v] ms IH]; intros d; simpl; [tauto|].
  unfold fits at 1. simpl.
  destruct (fieldByName (json.unquote k)) as [[|i|]|]; simpl; auto.
  - destruct (time.UnmarshalJSON parse v (Ts d)) eqn:E.
    + destruct (time.UnmarshalJSON parse v time.zero) eqn:E0; auto.
      apply (UnmarshalJSON_time _ _ (Ts d)) in E0. congruence.
    + apply (UnmarshalJSON_time _ _ time.zero) in E. rewrite E. simpl.
      split; discriminate.
  - destruct v; simpl; auto;
      try (split; [intros H; exfalso; revert H; apply object_saved
                  | discriminate]).
    destruct (strconv.ParseInt lit); simpl; auto.
    split; [intros H; exfalso; revert H; apply object_saved | discriminate].
  - destruct v; simpl; auto;
      try (split; [intros H; exfalso; revert H; apply object_saved
                  | discriminate]).
    destruct (strconv.ParseFloat lit); simpl; auto.
    split; [intros H; exfalso; revert H; apply object_saved | discriminate].
Qed.

Lemma value_accepts (v : json.Value) (d : airGradientData) :
  snd (value parse v d) = None <-> accepts parse v = true.
Proof.
  destruct v; simpl; try tauto; try (split; discriminate).
  apply object_fits.
Qed.

(** [json.Unmarshal] returns no error exactly on well-formed input whose
    value fits the struct. *)
Lemma Unmarshal_accepts (b : string) (d : airGradientData) :
  snd (Unmarshal parse b d) = None <->
  exists v, json.checkValid b = Some v /\ accepts parse v = true.
Proof.
  unfold Unmarshal. destruct (json.checkValid b) as [v|]; simpl.
  - rewrite value_accepts. split; [eauto|].
    intros (v' & E & H). congruence.
  - split; [discriminate|]. intros (v & E & _). discriminate.
Qed.

(** After a decoding without error, an integer field holds the integer of
    the literal the object submits for it, and is untouched when the
    object submits none. *)
Lemma object_int (ms : list (string * json.Value)) (d data : airGradientData)
    (i : IntField) :
  object parse ms d None = (data, None) ->
  match submitted (fInt i) ms with
  | Some v =>
      exists lit, v = json.Number lit
                  /\ strconv.ParseInt lit = Some (getInt i data)
  | None => getInt i data = getInt i d
  end.
Proof.
  revert d. induction ms as [|[k v] ms IH]; intros d H.
  - simpl in H. inversion H; subst. reflexivity.
  - rewrite submitted_cons. simpl in H.
    assert (Hsaved : forall d' e, object parse ms d' (Some e) <> (data, None)).
    { intros d' e E. apply (object_saved ms d' e). rewrite E. reflexivity. }
    destruct (fieldByName (json.unquote k)) as [[|j|]|] eqn:F.
    + rewrite (names_field _ fTs) by exact F.
      destruct (time.UnmarshalJSON parse v (Ts d)); [|discriminate].
      specialize (IH _ H). destruct (submitted (fInt i) ms); auto.
    + rewrite (names_field _ (fInt j)) by exact F. simpl.
      destruct v; try (exfalso; eapply Hsaved; exact H).
      * specialize (IH _ H). rewrite andb_false_r.
        destruct (submitted (fInt i) ms); auto.
      * destruct (strconv.ParseInt lit) as [n|] eqn:P;
          [|exfalso; eapply Hsaved; exact H].
        specialize (IH _ H). rewrite andb_true_r.
        destruct (submitted (fInt i) ms); auto.
        rewrite IH, getInt_setInt.
        destruct (decide (i = j)) as [->|N].
        -- rewrite bool_decide_eq_true_2 by reflexivity. eauto.
        -- rewrite bool_decide_eq_false_2 by congruence. reflexivity.
    + rewrite (names_field _ fTemp) by exact F. simpl.
      destruct v; try (exfalso; eapply Hsaved; exact H).
      * specialize (IH _ H). destruct (submitted (fInt i) ms); auto.
      * destruct (strconv.ParseFloat lit) as [x|];
          [|exfalso; eapply Hsaved; exact H].
        specialize (IH _ H). destruct (submitted (fInt i) ms); auto.
    + rewrite names_none by exact F. simpl.
      specialize (IH _ H). destruct (submitted (fInt i) ms); auto.
Qed.

(** The same for the one float field. *)
Lemma object_float (ms : list (string * json.Value))
    (d data : airGradientData) :
  object parse ms d None = (data, None) ->
  match submitted fTemp ms with
  | Some v =>
      exists lit, v = json.Number lit
                  /\ strconv.ParseFloat lit = Some (Temp data)
  | None => Temp data = Temp d
  end.
Proof.
  revert d. induction ms as [|[k v] ms IH]; intros d H.
  - simpl in H. inversion H; subst. reflexivity.
  - rewrite submitted_cons. simpl in H.
    assert (Hsaved : forall d' e, object parse ms d' (Some e) <> (data, None)).
    { intros d' e E. apply (object_saved ms d' e). rewrite E. reflexivity. }
    destruct (fieldByName (json.unquote k)) as [[|j|]|] eqn:F.
    + rewrite (names_field _ fTs) by exact F.
      destruct (time.UnmarshalJSON parse v (Ts d)); [|discriminate].
      specialize (IH _ H). destruct (submitted fTemp ms); auto.
    + rewrite (names_field _ (fInt j)) by exact F. simpl.
      destruct v; try (exfalso; eapply Hsaved; exact H).
      * specialize (IH _ H). destruct (submitted fTemp ms); auto.
      * destruct (strconv.ParseInt lit) as [n|];
          [|exfalso; eapply Hsaved; exact H].
        specialize (IH _ H). destruct (submitted fTemp ms); auto.
    + rewrite (names_field _ fTemp) by exact F.
      rewrite bool_decide_eq_true_2 by reflexivity. simpl.
      destruct v; try (exfalso; eapply Hsaved; exact H).
      * specialize (IH _ H). destruct (submitted fTemp ms); auto.
      * destruct (strconv.ParseFloat lit) as [x|] eqn:P;
          [|exfalso; eapply Hsaved; exact H].
        specialize (IH _ H). destruct (submitted fTemp ms); auto.
        rewrite IH. simpl. eauto.
    + rewrite names_none by exact F. simpl.
      specialize (IH _ H). destruct (submitted fTemp ms); auto.
Qed.

End Decoded.

(** ** The handler *)

Section Handler.

Variable parse : string -> option time.Time.

Lemma mainHandler_accepted (dataChannel : list airGradientData)
    (r : http.Request) (now : time.Time) (b : string)
    (data : airGradientData) :
  http.Body_ r = http.ReadOk b ->
  Unmarshal parse b zeroData = (data, None) ->
  mainHandler parse dataChannel r now
  = {| response := http.unwritten;
       channel :=
         (dataChannel ++ [setTs now (setId (instanceId (http.Vars r)) data)])%list;
       logged := [] |}.
Proof. intros B U. unfold mainHandler. rewrite B, U. reflexivity. Qed.

Lemma refused_false (r : http.Request) :
  refused parse r = false <->
  exists b data, http.Body_ r = http.ReadOk b
                 /\ Unmarshal parse b zeroData = (data, None).
Proof.
  unfold refused. split.
  - destruct (http.Body_ r) as [b|b]; [|discriminate].
    destruct (json.checkValid b) as [v|] eqn:V; [|discriminate].
    intros A. apply negb_false_iff in A.
    assert (U : snd (Unmarshal parse b zeroData) = None)
      by (apply Unmarshal_accepts; eauto).
    destruct (Unmarshal parse b zeroData) as [data e] eqn:E.
    simpl in U. subst e. eauto.
  - intros (b & data & -> & U).
    assert (S : snd (Unmarshal parse b zeroData) = None)
      by (rewrite U; reflexivity).
    apply Unmarshal_accepts in S as (v & -> & ->). reflexivity.
Qed.

Lemma mainHandler_refused (dataChannel : list airGradientData)
    (r : http.Request) (now : time.Time) :
  refused parse r = true ->
  exists errMsg,
    (errMsg = "cannot read body" \/ errMsg = "failed to unmarshal")
    /\ mainHandler parse dataChannel r now
       = {| response := http.Error errMsg http.StatusBadRequest;
            channel := dataChannel;
            logged := [errMsg] |}.
Proof.
  intros R. unfold mainHandler.
  destruct (http.Body_ r) as [b|b] eqn:B; [|eauto].
  destruct (Unmarshal parse b zeroData) as [data [e|]] eqn:U; [eauto|].
  assert (F : refused parse r = false) by (apply refused_false; eauto).
  congruence.
Qed.

End Handler.

(** Requests that are all decoded leave one reading each on the
    channel. *)
Lemma serveAll_length (parse : string -> option time.Time)
    (rs : list (http.Request * time.Time))
    (dataChannel : list airGradientData) :
  Forall (fun rt => refused parse (fst rt) = false) rs ->
  length (serveAll parse rs dataChannel)
  = (length dataChannel + length rs)%nat.
Proof.
  unfold serveAll. revert dataChannel.
  induction rs as [|[r now] rs IH]; intros ch A; simpl.
  - lia.
  - inversion A as [|? ? R A']; subst. simpl in R.
    apply refused_false in R as (b & data & B & U).
    rewrite (mainHandler_accepted parse ch r now b data B U). simpl.
    rewrite IH by assumption. rewrite length_app. simpl. lia.
Qed.

(** ** What the handler guarantees *)

(** C2.  A request that is decoded puts one reading on the channel.  When
    the [id] segment splits at [":"] into exactly two components, the
    reading's identifier is the second; when it splits into any other number
    of components (no colon, or two or more), and when the segment is absent,
    the identifier is ["null"]. *)
Theorem sensorId_from_route (parse : string -> option time.Time)
    (dataChannel : list airGradientData) (r : http.Request)
    (now : time.Time) (b : string) (data : airGradientData) :
  http.Body_ r = http.ReadOk b ->
  Unmarshal parse b zeroData = (data, None) ->
  exists p,
    channel (mainHandler parse dataChannel r now) = (dataChannel ++ [p])%list
    /\ (forall id a c,
          http.Vars r !! "id" = Some id ->
          strings.Split id ":" = [a; c] -> Id p = c)
    /\ (forall id,
          http.Vars r !! "id" = Some id ->
          length (strings.Split id ":") <> 2%nat -> Id p = "null")
    /\ (forall a c,
          http.Vars r !! "id" = Some (a ++ ":" ++ c) ->
          colons a = 0%nat -> colons c = 0%nat -> Id p = c)
    /\ (forall id,
          http.Vars r !! "id" = Some id ->
          colons id <> 1%nat -> Id p = "null")
    /\ (http.Vars r !! "id" = None -> Id p = "null").
Proof.
  intros B U. eexists. split.
  - rewrite (mainHandler_accepted parse dataChannel r now b data B U).
    reflexivity.
  - simpl. repeat split.
    + intros id a c V E. eapply instanceId_second; eauto.
    + intros id V L. apply (instanceId_other _ id V).
      unfold colons. rewrite Split_length in L. lia.
    + intros a c V Ha Hc. apply (instanceId_pair _ a c); assumption.
    + intros id V L. apply (instanceId_other _ id V L).
    + apply instanceId_absent.
Qed.

(** C3, as the code has it.  The handler answers 400 with one of its two
    short plain-text messages and leaves the channel alone exactly when the
    body cannot be read or [json.Unmarshal] returns an error: the body is
    not well-formed JSON, or it is well-formed and its value does not fit
    the struct.  Otherwise it puts exactly one reading on the channel and
    the reply is 200 with an empty body.  A body that is not well-formed
    JSON is always among the refused. *)
Theorem handler_reply (parse : string -> option time.Time)
    (dataChannel : list airGradientData) (r : http.Request)
    (now : time.Time) :
  let s := mainHandler parse dataChannel r now in
  (refused parse r = true ->
     http.StatusCode (response s) = 400
     /\ http.ContentType (response s) = "text/plain; charset=utf-8"
     /\ (http.Body (response s) = "cannot read body" ++ http.newline
         \/ http.Body (response s) = "failed to unmarshal" ++ http.newline)
     /\ channel s = dataChannel)
  /\ (refused parse r = false ->
        response s = http.unwritten
        /\ http.StatusCode (response s) = 200
        /\ http.Body (response s) = EmptyString
        /\ exists p, channel s = (dataChannel ++ [p])%list)
  /\ (rejected s dataChannel <-> refused parse r = true)
  /\ (unreadable r = true \/ malformed r = true -> refused parse r = true).
Proof.
  intros s.
  assert (R : refused parse r = true ->
              http.StatusCode (response s) = 400
              /\ http.ContentType (response s) = "text/plain; charset=utf-8"
              /\ (http.Body (response s) = "cannot read body" ++ http.newline
                  \/ http.Body (response s)
                     = "failed to unmarshal" ++ http.newline)
              /\ channel s = dataChannel).
  { intros H.
    destruct (mainHandler_refused parse dataChannel r now H)
      as (errMsg & [-> | ->] & E); subst s; rewrite E; simpl; auto. }
  assert (A : refused parse r = false ->
              response s = http.unwritten
              /\ http.StatusCode (response s) = 200
              /\ http.Body (response s) = EmptyString
              /\ exists p, channel s = (dataChannel ++ [p])%list).
  { intros H. apply refused_false in H as (b & data & B & U). subst s.
    rewrite (mainHandler_accepted parse dataChannel r now b data B U).
    simpl. eauto 6. }
  split; [exact R|]. split; [exact A|]. split; [split|].
  - intros [St _]. destruct (refused parse r) eqn:E; [reflexivity|].
    destruct (A eq_refl) as (_ & St' & _). rewrite St' in St. discriminate.
  - intros H. destruct (R H) as (St & _ & _ & C). split; assumption.
  - unfold unreadable, malformed, refused, json.Valid.
    destruct (http.Body_ r) as [b|b]; [|auto].
    destruct (json.checkValid b); intros [H|H]; try discriminate; auto.
Qed.

(** C4, where the code departs from it: the route matches a path whose
    [id] segment ends in its only colon, and the reading that reaches the
    channel then carries the empty identifier. *)
Theorem empty_identifier_enqueued (now : time.Time) :
  exists s p,
    ServeHTTP sampleRFC3339 [] "/sensors/airgradient:/measures"
      (http.ReadOk exampleBody) now = Some s
    /\ http.StatusCode (response s) = 200
    /\ channel s = [p]
    /\ Id p = EmptyString.
Proof.
  eexists. eexists.
  split; [vm_compute; reflexivity|]. simpl. auto.
Qed.

(** C5.  A request that is decoded puts on the channel a reading whose
    timestamp is the receipt time [now], whatever timestamp the decoding of
    the body left in the struct; and a body can leave one there, since the
    key [Ts] is decoded into that field. *)
Theorem timestamp_is_receipt_time (parse : string -> option time.Time)
    (dataChannel : list airGradientData) (r : http.Request)
    (now : time.Time) (b : string) (data : airGradientData) :
  http.Body_ r = http.ReadOk b ->
  Unmarshal parse b zeroData = (data, None) ->
  (exists p,
     channel (mainHandler parse dataChannel r now) = (dataChannel ++ [p])%list
     /\ Ts p = now
     /\ p = setTs now (setId (instanceId (http.Vars r)) data))
  /\ (forall raw t,
        parse raw = Some t ->
        value parse (json.Object [("Ts", json.Str raw)]) zeroData
        = (setTs t zeroData, None)).
Proof.
  intros B U. split.
  - eexists. split.
    + rewrite (mainHandler_accepted parse dataChannel r now b data B U).
      reflexivity.
    + split; reflexivity.
  - intros raw t P. cbn. rewrite P. reflexivity.
Qed.

Lemma sensorId_from_route_witness :
  exists p,
    channel (mainHandler sampleRFC3339 [] exampleRequest receipt) = [p]
    /\ Id p = "office-1".
Proof.
  destruct (sensorId_from_route sampleRFC3339 [] exampleRequest receipt
              exampleBody exampleData eq_refl
              ltac:(vm_compute; reflexivity))
    as (p & C & H & _).
  exists p. split; [exact C|].
  apply (H "airgradient:office-1" "airgradient" "office-1");
    vm_compute; reflexivity.
Defined.

(** C3 as stated fails: this body is well-formed JSON and is read in full,
    and the handler answers 400 without touching the channel. *)
Lemma wellformed_body_rejected :
  json.Valid (dq "{'wifi':'x'}") = true
  /\ rejected (mainHandler sampleRFC3339 [] misfitRequest receipt) []
  /\ ~ (rejected (mainHandler sampleRFC3339 [] misfitRequest receipt) []
        <-> unreadable misfitRequest = true \/ malformed misfitRequest = true).
Proof.
  assert (R : rejected (mainHandler sampleRFC3339 [] misfitRequest receipt) [])
    by (split; vm_compute; reflexivity).
  split; [vm_compute; reflexivity|]. split; [exact R|].
  intros [H _]. destruct (H R) as [U|U]; vm_compute in U; discriminate.
Qed.

Lemma handler_reply_witness :
  http.StatusCode
    (response (mainHandler sampleRFC3339 [] misfitRequest receipt)) = 400
  /\ channel (mainHandler sampleRFC3339 [] misfitRequest receipt) = []
  /\ exists p,
       channel (mainHandler sampleRFC3339 [] exampleRequest receipt) = [p].
Proof.
  destruct (handler_reply sampleRFC3339 [] misfitRequest receipt)
    as (R & _).
  destruct (R ltac:(vm_compute; reflexivity)) as (St & _ & _ & C).
  destruct (handler_reply sampleRFC3339 [] exampleRequest receipt)
    as (_ & A & _).
  destruct (A ltac:(vm_compute; reflexivity)) as (_ & _ & _ & P).
  split; [exact St|]. split; [exact C|exact P].
Defined.

Lemma timestamp_is_receipt_time_witness :
  Ts (fst (Unmarshal sampleRFC3339 stampedBody zeroData))
  = 1136214245000000000
  /\ exists p,
       channel (mainHandler sampleRFC3339 [] stampedRequest receipt) = [p]
       /\ Ts p = receipt.
Proof.
  split; [vm_compute; reflexivity|].
  destruct (timestamp_is_receipt_time sampleRFC3339 [] stampedRequest
              receipt stampedBody
              (fst (Unmarshal sampleRFC3339 stampedBody zeroData))
              eq_refl ltac:(vm_compute; reflexivity))
    as ((p & C & T & _) & _).
  exists p. split; [exact C | exact T].
Defined.

(** ** main.go: the connection *)

Lemma nonEmpty_true (s : string) : nonEmpty s = true <-> s <> EmptyString.
Proof.
  unfold nonEmpty. rewrite negb_true_iff.
  destruct (String.eqb_spec s EmptyString); split; congruence.
Qed.

Lemma nonEmpty_false (s : string) : nonEmpty s = false <-> s = EmptyString.
Proof.
  unfold nonEmpty. rewrite negb_false_iff. apply String.eqb_eq.
Qed.

Lemma writeDest_bucket (config : Configuration) :
  Bucket (InfluxDB_ config) <> EmptyString ->
  writeDest config = inr (Bucket (InfluxDB_ config)).
Proof.
  intros H. unfold writeDest. apply nonEmpty_true in H. rewrite H.
  reflexivity.
Qed.

Lemma writeDest_database (config : Configuration) :
  Bucket (InfluxDB_ config) = EmptyString ->
  Database (InfluxDB_ config) <> EmptyString ->
  RetentionPolicy (InfluxDB_ config) <> EmptyString ->
  writeDest config
  = inr (Database (InfluxDB_ config) ++ "/"
         ++ RetentionPolicy (InfluxDB_ config)).
Proof.
  intros B D R. unfold writeDest.
  apply nonEmpty_false in B. apply nonEmpty_true in D, R.
  rewrite B, D, R. reflexivity.
Qed.

Lemma writeDest_error (config : Configuration) :
  writeDest config = inl influxWriteConfigError <->
  Bucket (InfluxDB_ config) = EmptyString
  /\ ~ (Database (InfluxDB_ config) <> EmptyString
        /\ RetentionPolicy (InfluxDB_ config) <> EmptyString).
Proof.
  unfold writeDest.
  destruct (nonEmpty (Bucket (InfluxDB_ config))) eqn:B.
  - apply nonEmpty_true in B. split; [discriminate | tauto].
  - apply nonEmpty_false in B.
    destruct (nonEmpty (Database (InfluxDB_ config))) eqn:D;
      destruct (nonEmpty (RetentionPolicy (InfluxDB_ config))) eqn:R;
      simpl;
      try apply nonEmpty_true in D; try apply nonEmpty_false in D;
      try apply nonEmpty_true in R; try apply nonEmpty_false in R;
      split; try discriminate; try tauto.
  Qed.

Lemma InfluxConnect_dest (config : Configuration) :
  snd (InfluxConnect config)
  = match writeDest config with
    | inl e => inl e
    | inr dest =>
        let n := FlushInterval (InfluxDB_ config) in
        inr (influx.NewClientWithOptions
               (Address (InfluxDB_ config)) (auth config)
               {| influx.FlushInterval_ms :=
                    uint (1000 * (if n =? 0 then 30 else n));
                  influx.InsecureSkipVerify :=
                    SkipVerifySsl (InfluxDB_ config) |},
             influx.NewWriteAPI (Organization (InfluxDB_ config)) dest)
    end.
Proof.
  unfold InfluxConnect. destruct (writeDest config); [reflexivity|].
  cbv zeta. destruct (FlushInterval (InfluxDB_ config) =? 0); reflexivity.
Qed.

Lemma main_fatal (config : Configuration) (sig : string) :
  connectFails config ->
  main (Some config) sig
  = [Fatal "main" "failed to initialize InfluxDB connection"].
Proof.
  unfold connectFails, main. intros H.
  destruct (InfluxConnect config) as [cfg' [e|[client api]]];
    [reflexivity | discriminate].
Qed.

Lemma main_listens (config : Configuration) (sig : string) :
  ~ connectFails config ->
  In (GoListenAndServe (ListenAddr (Server_ config)))
     (main (Some config) sig).
Proof.
  unfold connectFails, main, InfluxConnect. intros H.
  destruct (writeDest config) as [[]|dest]; [exfalso; apply H; reflexivity|].
  cbv zeta. cbn.
  destruct (FlushInterval (InfluxDB_ config) =? 0); cbn; auto 10.
Qed.

(** C6.  [InfluxConnect] returns the configuration error exactly when the
    bucket is empty and database and retention policy are not both set;
    [main] then logs fatally and exits, with no listener started, whereas
    otherwise it starts the listener.  A bucket that is set is the write
    destination whatever database and retention policy say; with the bucket
    empty and both of the others set, the destination is
    [database/retentionPolicy]. *)
Theorem InfluxConnect_destination (config : Configuration) (sig : string) :
  let i := InfluxDB_ config in
  (connectFails config <->
     Bucket i = EmptyString
     /\ ~ (Database i <> EmptyString /\ RetentionPolicy i <> EmptyString))
  /\ (connectFails config ->
        main (Some config) sig
        = [Fatal "main" "failed to initialize InfluxDB connection"]
        /\ forall addr, ~ In (GoListenAndServe addr) (main (Some config) sig))
  /\ (~ connectFails config ->
        In (GoListenAndServe (ListenAddr (Server_ config)))
           (main (Some config) sig))
  /\ (Bucket i <> EmptyString ->
        exists cfg' client writeAPI,
          InfluxConnect config = (cfg', inr (client, writeAPI))
          /\ influx.Bucket_ writeAPI = Bucket i)
  /\ (Bucket i = EmptyString ->
        Database i <> EmptyString -> RetentionPolicy i <> EmptyString ->
        exists cfg' client writeAPI,
          InfluxConnect config = (cfg', inr (client, writeAPI))
          /\ influx.Bucket_ writeAPI
             = Database i ++ "/" ++ RetentionPolicy i).
Proof.
  intros i. subst i.
  assert (F : connectFails config <->
              writeDest config = inl influxWriteConfigError).
  { unfold connectFails. rewrite InfluxConnect_dest.
    destruct (writeDest config) as [[]|dest];
      split; try discriminate; reflexivity. }
  split; [rewrite F; apply writeDest_error|].
  split.
  { intros H. rewrite (main_fatal config sig H). split; [reflexivity|].
    intros addr [E|[]]. discriminate. }
  split; [apply main_listens|].
  split.
  - intros B. pose proof (InfluxConnect_dest config) as E.
    rewrite (writeDest_bucket config B) in E.
    destruct (InfluxConnect config) as [cfg' [e|[client api]]];
      simpl in E; [discriminate|].
    exists cfg', client, api. split; [reflexivity|].
    inversion E. reflexivity.
  - intros B D R. pose proof (InfluxConnect_dest config) as E.
    rewrite (writeDest_database config B D R) in E.
    destruct (InfluxConnect config) as [cfg' [e|[client api]]];
      simpl in E; [discriminate|].
    exists cfg', client, api. split; [reflexivity|].
    inversion E. reflexivity.
Qed.

Lemma InfluxConnect_destination_witness :
  main (Some noDestConfig) "interrupt"
  = [Fatal "main" "failed to initialize InfluxDB connection"]
  /\ (exists cfg' client writeAPI,
        InfluxConnect exampleConfig = (cfg', inr (client, writeAPI))
        /\ influx.Bucket_ writeAPI = "mybucket")
  /\ (exists cfg' client writeAPI,
        InfluxConnect v1Config = (cfg', inr (client, writeAPI))
        /\ influx.Bucket_ writeAPI = "mydb/autogen").
Proof.
  destruct (InfluxConnect_destination noDestConfig "interrupt")
    as (_ & M & _).
  destruct (InfluxConnect_destination exampleConfig "interrupt")
    as (_ & _ & _ & B & _).
  destruct (InfluxConnect_destination v1Config "interrupt")
    as (_ & _ & _ & _ & D).
  split; [apply M; vm_compute; reflexivity|].
  split; [apply B; vm_compute; discriminate|].
  apply D; vm_compute; [reflexivity | discriminate | discriminate].
Defined.

(** C7.  Whenever [InfluxConnect] builds a client, its credential is the
    token if one is set, also when user name and password are set; with no
    token and both user name and password set, it is [username:password]. *)
Theorem InfluxConnect_credential (config cfg' : Configuration)
    (client : influx.Client) (writeAPI : influx.WriteAPI) :
  InfluxConnect config = (cfg', inr (client, writeAPI)) ->
  let i := InfluxDB_ config in
  (Token i <> EmptyString -> influx.AuthToken client = Token i)
  /\ (Token i = EmptyString ->
        Username i <> EmptyString -> Password i <> EmptyString ->
        influx.AuthToken client = Username i ++ ":" ++ Password i).
Proof.
  intros H i. subst i.
  pose proof (InfluxConnect_dest config) as E. rewrite H in E. simpl in E.
  destruct (writeDest config) as [e|dest]; [discriminate|].
  inversion E; subst. simpl. unfold auth. split.
  - intros T. apply nonEmpty_true in T. rewrite T. reflexivity.
  - intros T U P. apply nonEmpty_false in T. apply nonEmpty_true in U, P.
    rewrite T, U, P. reflexivity.
Qed.

Lemma InfluxConnect_credential_witness :
  (exists cfg' client writeAPI,
     InfluxConnect exampleConfig = (cfg', inr (client, writeAPI))
     /\ influx.AuthToken client = "mytoken")
  /\ (exists cfg' client writeAPI,
        InfluxConnect v1Config = (cfg', inr (client, writeAPI))
        /\ influx.AuthToken client = "myuser:mypass").
Proof.
  split.
  - destruct (InfluxConnect exampleConfig) as [cfg' [e|[client api]]] eqn:E;
      [vm_compute in E; discriminate|].
    exists cfg', client, api. split; [reflexivity|].
    apply (InfluxConnect_credential exampleConfig cfg' client api E).
    vm_compute. discriminate.
  - destruct (InfluxConnect v1Config) as [cfg' [e|[client api]]] eqn:E;
      [vm_compute in E; discriminate|].
    exists cfg', client, api. split; [reflexivity|].
    apply (InfluxConnect_credential v1Config cfg' client api E);
      vm_compute; [reflexivity | discriminate | discriminate].
Defined.

(** C8.  The configured flush interval does not always reach the client
    as that number of seconds: [longInterval] is a [uint] other than zero,
    the configuration connects, and the client is given 384 milliseconds,
    the thousandfold of the interval modulo [2 ^ 64]. *)
Theorem flush_interval_wraps :
  isUint longInterval
  /\ longInterval <> 0
  /\ exists cfg' client writeAPI,
       InfluxConnect longConfig = (cfg', inr (client, writeAPI))
       /\ influx.FlushInterval_ms (influx.Opts client) = 384
       /\ influx.FlushInterval_ms (influx.Opts client)
          <> 1000 * FlushInterval (InfluxDB_ longConfig).
Proof.
  split; [unfold isUint, longInterval, uintSize; lia|].
  split; [discriminate|].
  eexists _, _, _. split; [vm_compute; reflexivity|].
  split; [reflexivity|]. vm_compute. discriminate.
Qed.

(** The option [InfluxConnect] sets where the multiplication does not
    wrap.  For a configuration that connects: a flush interval of zero is
    replaced by 30 and the option is 30000 milliseconds; any other interval
    whose thousandfold is below [2 ^ 64], the range of [uint], is left as it
    is and the option is a thousand times its value.  What the client
    library makes of the option is outside this file. *)
Lemma InfluxConnect_flush_interval (config cfg' : Configuration)
    (client : influx.Client) (writeAPI : influx.WriteAPI) :
  isUint (FlushInterval (InfluxDB_ config)) ->
  InfluxConnect config = (cfg', inr (client, writeAPI)) ->
  let n := FlushInterval (InfluxDB_ config) in
  let ms := influx.FlushInterval_ms (influx.Opts client) in
  (n = 0 -> ms = 1000 * 30 /\ FlushInterval (InfluxDB_ cfg') = 30)
  /\ (n <> 0 -> 1000 * n < 2 ^ 64 -> ms = 1000 * n /\ cfg' = config).
Proof.
  intros U H n ms. subst n ms. unfold InfluxConnect in H.
  destruct (writeDest config) as [e|dest]; [discriminate|].
  cbv zeta in H.
  destruct (Z.eqb_spec (FlushInterval (InfluxDB_ config)) 0) as [Z0|NZ].
  - inversion H; subst. simpl. split; [auto | congruence].
  - inversion H; subst. simpl. unfold uint, uintSize.
    split; [congruence|].
    intros _ B. split; [|reflexivity].
    apply Z.mod_small. unfold isUint in U. lia.
Qed.

Lemma InfluxConnect_flush_interval_witness :
  (exists cfg' client writeAPI,
     InfluxConnect v1Config = (cfg', inr (client, writeAPI))
     /\ influx.FlushInterval_ms (influx.Opts client) = 30000)
  /\ (exists cfg' client writeAPI,
        InfluxConnect exampleConfig = (cfg', inr (client, writeAPI))
        /\ influx.FlushInterval_ms (influx.Opts client) = 30000).
Proof.
  split.
  - destruct (InfluxConnect v1Config) as [cfg' [e|[client api]]] eqn:E;
      [vm_compute in E; discriminate|].
    exists cfg', client, api. split; [reflexivity|].
    assert (U : isUint (FlushInterval (InfluxDB_ v1Config)))
      by (vm_compute; split; [discriminate | reflexivity]).
    destruct (InfluxConnect_flush_interval v1Config cfg' client api U E)
      as (Z0 & _).
    apply Z0. reflexivity.
  - destruct (InfluxConnect exampleConfig) as [cfg' [e|[client api]]] eqn:E;
      [vm_compute in E; discriminate|].
    exists cfg', client, api. split; [reflexivity|].
    assert (U : isUint (FlushInterval (InfluxDB_ exampleConfig)))
      by (vm_compute; split; [discriminate | reflexivity]).
    destruct (InfluxConnect_flush_interval exampleConfig cfg' client api U E)
      as (_ & NZ).
    apply NZ; vm_compute; [discriminate | reflexivity].
Defined.

(** ** main.go: the writer *)

Lemma writer_Written (dataCh : list airGradientData)
    (writeAPI : influx.WriteAPI) :
  influx.Written (writer dataCh writeAPI)
  = (influx.Written writeAPI ++ map influxPoint dataCh)%list.
Proof.
  revert writeAPI. induction dataCh as [|p dataCh IH]; intros w; simpl.
  - rewrite app_nil_r. reflexivity.
  - rewrite IH. simpl. rewrite <- app_assoc. reflexivity.
Qed.

Lemma writer_destination (dataCh : list airGradientData)
    (writeAPI : influx.WriteAPI) :
  influx.Org (writer dataCh writeAPI) = influx.Org writeAPI
  /\ influx.Bucket_ (writer dataCh writeAPI) = influx.Bucket_ writeAPI.
Proof.
  revert writeAPI. induction dataCh as [|p dataCh IH]; intros w; simpl;
    [auto|].
  destruct (IH (influx.WritePoint w (influxPoint p))) as (-> & ->). auto.
Qed.

Lemma InfluxConnect_prefix (prefix : string) (config : Configuration) :
  snd (InfluxConnect (setMeasurementPrefix prefix config))
  = snd (InfluxConnect config).
Proof. rewrite !InfluxConnect_dest. reflexivity. Qed.

(** C10.  Two configurations that differ only in the measurement prefix
    hand the store client the same writes for the same readings, through
    the same client; every write is named [air_quality]; and [main] does
    the same under both. *)
Theorem measurement_prefix_unused (prefix : string) (config : Configuration)
    (dataCh : list airGradientData) (sig : string) :
  deliver (setMeasurementPrefix prefix config) dataCh = deliver config dataCh
  /\ main (Some (setMeasurementPrefix prefix config)) sig
     = main (Some config) sig
  /\ match deliver config dataCh with
     | Some (client, writeAPI) =>
         influx.Written writeAPI = map influxPoint dataCh
         /\ Forall (fun w => influx.Name w = "air_quality")
                   (influx.Written writeAPI)
     | None => connectFails config
     end.
Proof.
  pose proof (InfluxConnect_prefix prefix config) as E.
  split; [|split].
  - unfold deliver.
    destruct (InfluxConnect (setMeasurementPrefix prefix config))
      as [c1 r1], (InfluxConnect config) as [c2 r2].
    simpl in E. subst r2. reflexivity.
  - unfold main, InfluxConnect in *.
    change (writeDest (setMeasurementPrefix prefix config))
      with (writeDest config) in *.
    destruct (writeDest config); [reflexivity|]. cbv zeta.
    change (FlushInterval (InfluxDB_ (setMeasurementPrefix prefix config)))
      with (FlushInterval (InfluxDB_ config)).
    destruct (FlushInterval (InfluxDB_ config) =? 0); reflexivity.
  - unfold deliver, connectFails.
    pose proof (InfluxConnect_dest config) as D.
    destruct (InfluxConnect config) as [c [[]|[client api]]]; simpl in D;
      [reflexivity|].
    destruct (writeDest config); [discriminate|]. inversion D; subst.
    rewrite writer_Written. simpl. split; [reflexivity|].
    apply Forall_map. apply Forall_forall. intros. reflexivity.
Qed.

Lemma omitted_submitted (f : Field) (ms : list (string * json.Value)) :
  omitted f ms = true -> submitted f ms = None.
Proof.
  unfold omitted, submitted. induction ms as [|m ms IH]; simpl;
    [reflexivity|].
  intros H. apply andb_true_iff in H as [N H]. apply negb_true_iff in N.
  rewrite N. simpl. auto.
Qed.

Lemma influxPoint_int (p : airGradientData) (i : IntField) :
  influx.Fields (influxPoint p) !! storeName i
  = Some (influx.Int (getInt i p)).
Proof. destruct i; reflexivity. Qed.

Lemma Unmarshal_object (parse : string -> option time.Time) (b : string)
    (ms : list (string * json.Value)) (d data : airGradientData) :
  json.checkValid b = Some (json.Object ms) ->
  Unmarshal parse b d = (data, None) ->
  object parse ms d None = (data, None).
Proof. unfold Unmarshal. intros ->. simpl. auto. Qed.

(** C1.  The writer hands the store client one point for each reading it
    receives, in order, after those written before.  The point is named
    [air_quality]; its one tag is [id], the reading's identifier; its ten
    fields [wifi], [co2], [pm1], [pm25], [pm10], [pm003], [tvoc], [nox],
    [temp] and [rel_humidity] are the reading's [Wifi], [C02], [PM01],
    [PM02], [PM10], [PM003], [TVOC], [NOX], [Temp] and [Hum]; its time is the
    reading's timestamp.  A field for which the request body submits a
    number is written with the value of that number, and a field that no
    member of the body names is written as zero.  The example request of the
    specification is answered 200 and yields exactly the one write it
    describes.  Requests that are all decoded yield as many writes as there
    are requests. *)
Theorem writer_one_write_per_point (dataCh : list airGradientData)
    (writeAPI : influx.WriteAPI) :
  influx.Written (writer dataCh writeAPI)
  = (influx.Written writeAPI ++ map influxPoint dataCh)%list
  /\ (forall p : airGradientData,
        let w := influxPoint p in
        influx.Name w = "air_quality"
        /\ influx.Tags w = {[ "id" := Id p ]}
        /\ influx.Fields w !! "wifi" = Some (influx.Int (Wifi p))
        /\ influx.Fields w !! "co2" = Some (influx.Int (C02 p))
        /\ influx.Fields w !! "pm1" = Some (influx.Int (PM01 p))
        /\ influx.Fields w !! "pm25" = Some (influx.Int (PM02 p))
        /\ influx.Fields w !! "pm10" = Some (influx.Int (PM10 p))
        /\ influx.Fields w !! "pm003" = Some (influx.Int (PM003 p))
        /\ influx.Fields w !! "tvoc" = Some (influx.Int (TVOC p))
        /\ influx.Fields w !! "nox" = Some (influx.Int (NOX p))
        /\ influx.Fields w !! "temp" = Some (influx.Float (Temp p))
        /\ influx.Fields w !! "rel_humidity" = Some (influx.Int (Hum p))
        /\ size (influx.Fields w) = 10%nat
        /\ influx.Time w = Ts p)
  /\ (forall parse dataChannel r now b ms data,
        http.Body_ r = http.ReadOk b ->
        json.checkValid b = Some (json.Object ms) ->
        Unmarshal parse b zeroData = (data, None) ->
        exists p,
          channel (mainHandler parse dataChannel r now)
          = (dataChannel ++ [p])%list
          /\ (forall i lit,
                submitted (fInt i) ms = Some (json.Number lit) ->
                exists n,
                  strconv.ParseInt lit = Some n
                  /\ influx.Fields (influxPoint p) !! storeName i
                     = Some (influx.Int n))
          /\ (forall lit,
                submitted fTemp ms = Some (json.Number lit) ->
                exists x,
                  strconv.ParseFloat lit = Some x
                  /\ influx.Fields (influxPoint p) !! "temp"
                     = Some (influx.Float x))
          /\ (forall i, omitted (fInt i) ms = true ->
                influx.Fields (influxPoint p) !! storeName i
                = Some (influx.Int 0))
          /\ (omitted fTemp ms = true ->
                influx.Fields (influxPoint p) !! "temp"
                = Some (influx.Float (S754_zero false))))
  /\ (forall parse rs,
        Forall (fun rt => refused parse (fst rt) = false) rs ->
        length (influx.Written (writer (serveAll parse rs []) writeAPI))
        = (length (influx.Written writeAPI) + length rs)%nat)
  /\ (forall parse now,
        exists s p,
          ServeHTTP parse [] examplePath (http.ReadOk exampleBody) now
          = Some s
          /\ http.StatusCode (response s) = 200
          /\ channel s = [p]
          /\ influx.Written (writer (channel s) writeAPI)
             = (influx.Written writeAPI ++ [exampleWrite now])%list).
Proof.
  split; [apply writer_Written|]. split; [|split; [|split]].
  - intros p w. subst w.
    repeat (split; [reflexivity|]). reflexivity.
  - intros parse dataChannel r now b ms data B V U.
    eexists. split.
    + rewrite (mainHandler_accepted parse dataChannel r now b data B U).
      reflexivity.
    + pose proof (Unmarshal_object parse b ms zeroData data V U) as O.
      assert (G : forall i, getInt i (setTs now
                               (setId (instanceId (http.Vars r)) data))
                            = getInt i data)
        by (intros i; destruct i; reflexivity).
      split; [|split; [|split]].
      * intros i lit S. rewrite influxPoint_int, G.
        pose proof (object_int parse ms zeroData data i O) as I.
        rewrite S in I. destruct I as (lit' & E & P).
        injection E as <-. eauto.
      * intros lit S.
        pose proof (object_float parse ms zeroData data O) as F.
        rewrite S in F. destruct F as (lit' & E & P).
        injection E as <-. exists (Temp data). auto.
      * intros i H. rewrite influxPoint_int, G. f_equal. f_equal.
        pose proof (object_int parse ms zeroData data i O) as I.
        rewrite (omitted_submitted _ _ H) in I.
        destruct i; exact I.
      * intros H.
        pose proof (object_float parse ms zeroData data O) as F.
        rewrite (omitted_submitted _ _ H) in F.
        change (influx.Fields
                  (influxPoint
                     (setTs now (setId (instanceId (http.Vars r)) data)))
                !! "temp") with (Some (influx.Float (Temp data))).
        rewrite F. reflexivity.
  - intros parse rs A. rewrite writer_Written, length_app, length_map.
    rewrite (serveAll_length parse rs [] A). reflexivity.
  - intros parse now. eexists. eexists.
    split; [vm_compute; reflexivity|].
    split; [reflexivity|]. split; [reflexivity|].
    rewrite writer_Written. reflexivity.
Qed.

Lemma writer_one_write_per_point_witness :
  exists p,
    channel (mainHandler sampleRFC3339 [] stampedRequest receipt) = [p]
    /\ influx.Fields (influxPoint p) !! "co2" = Some (influx.Int 0)
    /\ influx.Fields (influxPoint p) !! "wifi" = Some (influx.Int 1)
    /\ influx.Fields (influxPoint p) !! "temp"
       = Some (influx.Float (S754_zero false)).
Proof.
  destruct (writer_one_write_per_point [] (influx.NewWriteAPI "myorg" "b"))
    as (_ & _ & O & _ & _).
  destruct (O sampleRFC3339 [] stampedRequest receipt stampedBody
              [("Ts", json.Str "2006-01-02T15:04:05Z");
               ("wifi", json.Number "1")]
              (fst (Unmarshal sampleRFC3339 stampedBody zeroData))
              eq_refl ltac:(vm_compute; reflexivity)
              ltac:(vm_compute; reflexivity))
    as (p & C & _ & _ & I & T).
  exists p. split; [exact C|].
  split; [apply (I fC02); vm_compute; reflexivity|].
  split; [|apply T; vm_compute; reflexivity].
  simpl in C. injection C as <-. vm_compute. reflexivity.
Defined.

(** ** Integer literals: reading and writing *)

Lemma digit_cases (d : Z) :
  0 <= d < 10 ->
  d = 0 \/ d = 1 \/ d = 2 \/ d = 3 \/ d = 4 \/ d = 5 \/ d = 6 \/ d = 7
  \/ d = 8 \/ d = 9.
Proof. lia. Qed.

Lemma isDigit_digitChar (d : Z) :
  0 <= d < 10 -> strconv.isDigit (strconv.digitChar d) = true.
Proof.
  intros H. destruct (digit_cases d H) as [->|[->|[->|[->|[->|[->|[->|[->|[->| ->]]]]]]]]];
    reflexivity.
Qed.

Lemma digitVal_digitChar (d : Z) :
  0 <= d < 10 -> strconv.digitVal (strconv.digitChar d) = d.
Proof.
  intros H. destruct (digit_cases d H) as [->|[->|[->|[->|[->|[->|[->|[->|[->| ->]]]]]]]]];
    reflexivity.
Qed.

Lemma isDigit_bounds (c : ascii) :
  strconv.isDigit c = true -> 0 <= strconv.digitVal c < 10.
Proof.
  unfold strconv.isDigit, strconv.digitVal. intros H.
  apply andb_true_iff in H as [L U]. lia.
Qed.

Lemma isDigit_not_sign (c : ascii) :
  strconv.isDigit c = true ->
  Ascii.eqb c "-" = false /\ Ascii.eqb c "+" = false.
Proof.
  intros H. split.
  - destruct (Ascii.eqb_spec c "-") as [->|]; [discriminate | reflexivity].
  - destruct (Ascii.eqb_spec c "+") as [->|]; [discriminate | reflexivity].
Qed.

Lemma digitsFrom_nonneg (s : string) (m un : Z) :
  strconv.digitsFrom s m = Some un -> 0 <= m -> 0 <= un.
Proof.
  revert m. induction s as [|c s IH]; simpl; intros m H M.
  - inversion H. lia.
  - destruct (strconv.isDigit c) eqn:D; [|discriminate].
    apply isDigit_bounds in D. apply (IH _ H). lia.
Qed.

(** What [ParseInt] accepts is in the range of a 64-bit integer. *)
Lemma ParseInt_range (lit : string) (n : Z) :
  strconv.ParseInt lit = Some n -> - 2 ^ 63 <= n < 2 ^ 63.
Proof.
  unfold strconv.ParseInt, strconv.ParseUint, strconv.cutoff.
  destruct lit as [|c s]; [discriminate|].
  set (s1 := if Ascii.eqb c "+" || Ascii.eqb c "-" then s else String c s).
  destruct s1 as [|c1 s1'] eqn:E1; [discriminate|].
  destruct (strconv.digitsFrom (String c1 s1') 0) as [un|] eqn:D;
    [|discriminate].
  apply digitsFrom_nonneg in D; [|lia].
  destruct (Ascii.eqb c "-"); simpl.
  - destruct (Z.ltb_spec (2 ^ 63) un) as [B|B]; [discriminate|].
    intros H. inversion H. lia.
  - destruct (Z.leb_spec (2 ^ 63) un) as [B|B]; [discriminate|].
    intros H. inversion H. lia.
Qed.

(** [formatBits] writes its digits in front of [acc]: reading the result
    from [m] is reading [acc] from [m] shifted by the digits. *)
Lemma digitsFrom_formatBits (fuel : nat) (u : Z) (acc : string) (m : Z) :
  0 <= u < 10 ^ Z.of_nat fuel ->
  exists k, 0 <= k
            /\ strconv.digitsFrom (strconv.formatBits fuel u acc) m
               = strconv.digitsFrom acc (m * 10 ^ k + u).
Proof.
  revert u acc m. induction fuel as [|fuel IH]; intros u acc m H.
  - exists 0. split; [lia|]. simpl in *. f_equal. lia.
  - simpl strconv.formatBits. destruct (Z.ltb_spec u 10) as [L|L].
    + exists 1. split; [lia|]. simpl.
      rewrite isDigit_digitChar, digitVal_digitChar by lia.
      f_equal; lia.
    + assert (B : 0 <= u / 10 < 10 ^ Z.of_nat fuel).
      { rewrite Nat2Z.inj_succ, Z.pow_succ_r in H by lia.
        split; [apply Z.div_pos; lia|].
        apply Z.div_lt_upper_bound; lia. }
      destruct (IH (u / 10)
                  (String (strconv.digitChar (u mod 10)) acc) m B)
        as (k & K & E).
      exists (k + 1). split; [lia|]. rewrite E. simpl.
      assert (M : 0 <= u mod 10 < 10) by (apply Z.mod_pos_bound; lia).
      rewrite isDigit_digitChar, digitVal_digitChar by exact M.
      f_equal. rewrite Z.pow_add_r by lia.
      pose proof (Z.div_mod u 10 ltac:(lia)). lia.
Qed.

Lemma formatBits_headDigit (fuel : nat) (u : Z) (acc : string) :
  0 <= u -> fuel <> 0%nat \/ headDigit acc = true ->
  headDigit (strconv.formatBits fuel u acc) = true.
Proof.
  revert u acc. induction fuel as [|fuel IH]; intros u acc U H; simpl.
  - destruct H as [H|H]; [congruence | exact H].
  - destruct (Z.ltb_spec u 10) as [L|L].
    + simpl. apply isDigit_digitChar. lia.
    + apply IH; [apply Z.div_pos; lia|]. right. simpl.
      apply isDigit_digitChar. apply Z.mod_pos_bound. lia.
Qed.

Lemma ParseUint_formatBits (u : Z) :
  0 <= u < 10 ^ 20 ->
  exists c s,
    strconv.formatBits 20 u EmptyString = String c s
    /\ strconv.isDigit c = true
    /\ strconv.ParseUint (String c s) = Some u.
Proof.
  intros H.
  pose proof (formatBits_headDigit 20 u EmptyString ltac:(lia)
                ltac:(left; discriminate)) as Hd.
  destruct (digitsFrom_formatBits 20 u EmptyString 0 H) as (k & K & E).
  destruct (strconv.formatBits 20 u EmptyString) as [|c s];
    [discriminate|].
  exists c, s. split; [reflexivity|]. split; [exact Hd|].
  unfold strconv.ParseUint. rewrite E. simpl. f_equal; lia.
Qed.

(** Writing a 64-bit integer and reading it back gives the integer. *)
Lemma ParseInt_FormatInt (n : Z) :
  - 2 ^ 63 <= n < 2 ^ 63 ->
  strconv.ParseInt (strconv.FormatInt n) = Some n.
Proof.
  intros R. unfold strconv.FormatInt.
  destruct (ParseUint_formatBits (Z.abs n) ltac:(lia)) as (c & s & E & D & P).
  rewrite E. destruct (isDigit_not_sign c D) as (Nm & Np).
  destruct (Z.ltb_spec n 0) as [L|L].
  - unfold strconv.ParseInt. rewrite Ascii.eqb_refl.
    change (Ascii.eqb "-" "+") with false. cbv zeta. simpl orb. cbv iota.
    rewrite P. unfold strconv.cutoff. simpl negb. simpl andb.
    destruct (Z.ltb_spec (2 ^ 63) (Z.abs n)); [lia|].
    f_equal. lia.
  - unfold strconv.ParseInt. rewrite Nm, Np. cbv zeta. simpl orb. cbv iota.
    rewrite P. unfold strconv.cutoff. simpl negb. simpl andb.
    destruct (Z.leb_spec (2 ^ 63) (Z.abs n)); [lia|].
    f_equal. lia.
Qed.



(** ** The round trip *)



Lemma ParseFloat_nearest (lit : string) (x : float64) :
  strconv.ParseFloat lit = Some x ->
  exists d, strconv.readFloat lit = Some d
            /\ x = strconv.nearest d /\ strconv.isInf x = false.
Proof.
  unfold strconv.ParseFloat.
  destruct (strconv.readFloat lit) as [d|]; [|discriminate].
  cbv zeta. destruct (strconv.isInf (strconv.nearest d)) eqn:I;
    [discriminate|].
  intros H. inversion H; subst. eauto.
Qed.

(** ** Rounding to binary64 *)





















(** ** Decimals and binary64 numbers as fractions *)





















(** ** The exact literal of a binary64 number *)













(** * Further properties *)

(** ** Splitting and joining *)

Lemma genSplit_Join (sep : ascii) (n : nat) (s : string) :
  Join (strings.genSplit n s sep) sep = s.
Proof.
  revert s. induction n as [|n IH]; intros s; simpl; [reflexivity|].
  destruct (strings.cutAt s sep) as [[a rest]|] eqn:E; [|reflexivity].
  apply cutAt_Some in E as (-> & _ & _).
  specialize (IH rest). simpl.
  destruct (strings.genSplit n rest sep) as [|x l] eqn:G.
  - destruct n; simpl in G; [discriminate|].
    destruct (strings.cutAt rest sep) as [[? ?]|]; discriminate.
  - rewrite IH. reflexivity.
Qed.

Lemma genSplit_pieces (sep : ascii) (n : nat) (s : string) :
  strings.Count s sep = n ->
  Forall (fun piece => strings.Count piece sep = 0%nat)
         (strings.genSplit n s sep).
Proof.
  revert s. induction n as [|n IH]; intros s H; simpl.
  - constructor; [exact H | constructor].
  - destruct (strings.cutAt s sep) as [[a rest]|] eqn:E.
    + apply cutAt_Some in E as (_ & Ha & Hc).
      constructor; [exact Ha|]. apply IH. congruence.
    + apply cutAt_None in E. congruence.
Qed.

(** X19.  Joining the pieces of [strings.Split] with the separator gives
    the string back; there is one piece more than there are separators, and
    no piece holds the separator. *)
Theorem Split_Join (s : string) (sep : ascii) :
  Join (strings.Split s sep) sep = s
  /\ length (strings.Split s sep) = S (strings.Count s sep)
  /\ Forall (fun piece => strings.Count piece sep = 0%nat)
            (strings.Split s sep).
Proof.
  split; [apply genSplit_Join|]. split; [apply Split_length|].
  apply genSplit_pieces. reflexivity.
Qed.

(** ** The identifier and the route *)

Lemma instanceId_colons (vars : gmap string string) :
  colons (instanceId vars) = 0%nat.
Proof.
  unfold instanceId. destruct (vars !! "id") as [id|]; [|reflexivity].
  cbv zeta.
  destruct (strings.Split id ":") as [|a [|b [|c l]]] eqn:E;
    try reflexivity.
  simpl. apply Split_two in E as (_ & _ & Hb). exact Hb.
Qed.

(** X1.  The identifier of a reading the handler sends holds no colon: it
    is the colon-free text after the only colon of the segment, or
    ["null"]. *)
Theorem sensorId_has_no_colon (parse : string -> option time.Time)
    (dataChannel : list airGradientData) (r : http.Request)
    (now : time.Time) :
  refused parse r = false ->
  exists p,
    channel (mainHandler parse dataChannel r now) = (dataChannel ++ [p])%list
    /\ colons (Id p) = 0%nat
    /\ (Id p = "null"
        \/ exists a, http.Vars r !! "id" = Some (a ++ ":" ++ Id p)
                     /\ colons a = 0%nat).
Proof.
  intros A. apply refused_false in A as (b & data & B & U).
  eexists. split.
  - rewrite (mainHandler_accepted parse dataChannel r now b data B U).
    reflexivity.
  - simpl. split; [apply instanceId_colons|].
    unfold instanceId. destruct (http.Vars r !! "id") as [id|]; [|auto].
    cbv zeta.
    destruct (strings.Split id ":") as [|a [|c [|e l]]] eqn:E; simpl; auto.
    right. exists a. apply Split_two in E as (-> & Ha & _). auto.
Qed.

Lemma sensorId_has_no_colon_witness :
  exists p,
    channel (mainHandler sampleRFC3339 [] exampleRequest receipt) = [p]
    /\ colons (Id p) = 0%nat.
Proof.
  destruct (sensorId_has_no_colon sampleRFC3339 [] exampleRequest receipt
              ltac:(vm_compute; reflexivity))
    as (p & C & N & _).
  exists p. split; [exact C | exact N].
Defined.

Lemma lastByte_app (a b : string) :
  b <> EmptyString -> mux.lastByte (a ++ b) = mux.lastByte b.
Proof.
  intros N. induction a as [|c a IH]; [reflexivity|].
  simpl. rewrite IH. destruct (a ++ b) eqn:E; [|reflexivity].
  destruct a; [simpl in E; contradiction | discriminate E].
Qed.

Lemma Split_routePath (id : string) :
  strings.Count id "/" = 0%nat ->
  strings.Split (routePath id) "/"
  = [EmptyString; "sensors"; id; "measures"].
Proof.
  intros S. unfold routePath.
  change ("/sensors/" ++ id ++ "/measures")
    with (EmptyString ++ String "/" ("sensors" ++ String "/"
            (id ++ String "/" "measures"))).
  rewrite Split_cons by reflexivity.
  rewrite Split_cons by reflexivity.
  rewrite Split_cons by exact S.
  rewrite Split_one by reflexivity. reflexivity.
Qed.

Lemma cleanPath_routePath (id : string) :
  strings.Count id "/" = 0%nat ->
  mux.cleanPath (routePath id)
  = if String.eqb id EmptyString || String.eqb id "." then "/sensors/measures"
    else if String.eqb id ".." then "/measures"
    else routePath id.
Proof.
  intros S. unfold mux.cleanPath.
  change (routePath id) with (String "/" ("sensors/" ++ id ++ "/measures")).
  cbv iota beta zeta. change (Ascii.eqb "/" "/") with true. cbv iota.
  change (String "/" ("sensors/" ++ id ++ "/measures"))
    with (("/sensors/" ++ id) ++ "/measures").
  rewrite lastByte_app by discriminate.
  change (("/sensors/" ++ id) ++ "/measures") with (routePath id).
  unfold path.Clean. rewrite (Split_routePath id S).
  simpl. destruct (String.eqb id EmptyString || String.eqb id "."); simpl.
  - reflexivity.
  - destruct (String.eqb id ".."); reflexivity.
Qed.

Lemma Vars_routePath (id : string) :
  id <> EmptyString -> strings.Count id "/" = 0%nat ->
  id <> "." -> id <> ".." ->
  mux.Vars (routePath id) = Some {[ "id" := id ]}.
Proof.
  intros N S D1 D2. unfold mux.Vars.
  rewrite (cleanPath_routePath id S).
  destruct (String.eqb_spec id EmptyString); [contradiction|].
  destruct (String.eqb_spec id "."); [contradiction|].
  destruct (String.eqb_spec id ".."); [contradiction|].
  cbn [orb]. rewrite String.eqb_refl. cbn [negb].
  rewrite (Split_routePath id S). cbn [String.eqb Ascii.eqb Bool.eqb andb].
  destruct (String.eqb_spec id EmptyString); [contradiction|].
  reflexivity.
Qed.

Lemma Vars_inv (path : string) (vars : gmap string string) :
  mux.Vars path = Some vars ->
  exists id, path = routePath id /\ id <> EmptyString
             /\ strings.Count id "/" = 0%nat
             /\ id <> "." /\ id <> ".." /\ vars = {[ "id" := id ]}.
Proof.
  unfold mux.Vars. intros H.
  destruct (String.eqb_spec (mux.cleanPath path) path) as [C|];
    [|discriminate]. simpl in H.
  pose proof (genSplit_Join "/" (strings.Count path "/") path) as J.
  pose proof (genSplit_pieces "/" (strings.Count path "/") path eq_refl) as P.
  fold (strings.Split path "/") in J, P.
  destruct (strings.Split path "/")
    as [|root [|sensors [|id [|measures [|x l]]]]];
    try discriminate.
  destruct (String.eqb_spec root EmptyString) as [Er|]; [|discriminate].
  destruct (String.eqb_spec sensors "sensors") as [Es|]; [|discriminate].
  destruct (String.eqb_spec measures "measures") as [Em|]; [|discriminate].
  destruct (String.eqb_spec id EmptyString) as [|N]; [discriminate|].
  subst root sensors measures.
  simpl in H. inversion H; subst vars. exists id.
  assert (S : strings.Count id "/" = 0%nat).
  { inversion P as [|? ? _ P1]; subst. inversion P1 as [|? ? _ P2]; subst.
    inversion P2 as [|? ? Hid _]; subst. exact Hid. }
  simpl in J. change (routePath id = path) in J. subst path.
  rewrite (cleanPath_routePath id S) in C.
  split; [reflexivity|]. split; [exact N|]. split; [exact S|].
  split; [|split; [|reflexivity]]; intros ->; discriminate C.
Qed.

(** X17.  The router calls the handler exactly for the paths
    [/sensors/<id>/measures] with one non-empty segment [<id>] free of
    slashes and other than [.] and [..], and then with [id] as the only
    route variable; for the segments [.] and [..] the path is not clean
    and the handler is not called. *)
Theorem route_matches (parse : string -> option time.Time)
    (dataChannel : list airGradientData) (path : string)
    (body : http.ReadAll) (now : time.Time) :
  (forall s,
     ServeHTTP parse dataChannel path body now = Some s <->
     exists id,
       path = routePath id /\ id <> EmptyString
       /\ strings.Count id "/" = 0%nat
       /\ id <> "." /\ id <> ".."
       /\ s = mainHandler parse dataChannel
                {| http.Body_ := body; http.Vars := {[ "id" := id ]} |} now)
  /\ (ServeHTTP parse dataChannel path body now = None <->
      ~ exists id, path = routePath id /\ id <> EmptyString
                   /\ strings.Count id "/" = 0%nat
                   /\ id <> "." /\ id <> "..")
  /\ ServeHTTP parse dataChannel (routePath ".") body now = None
  /\ ServeHTTP parse dataChannel (routePath "..") body now = None.
Proof.
  unfold ServeHTTP. split; [|split; [|split; reflexivity]].
  - intros s. split.
    + destruct (mux.Vars path) as [vars|] eqn:V; [|discriminate].
      apply Vars_inv in V as (id & -> & N & S & D1 & D2 & ->).
      intros H. inversion H. exists id. auto 7.
    + intros (id & -> & N & S & D1 & D2 & ->).
      rewrite (Vars_routePath id N S D1 D2). reflexivity.
  - split.
    + destruct (mux.Vars path) as [vars|] eqn:V; [discriminate|].
      intros _ (id & -> & N & S & D1 & D2).
      rewrite (Vars_routePath id N S D1 D2) in V. discriminate.
    + intros H. destruct (mux.Vars path) as [vars|] eqn:V; [|reflexivity].
      exfalso. apply H. apply Vars_inv in V as (id & -> & N & S & D1 & D2 & _).
      exists id. auto.
Qed.

Lemma colon_pair_segment (a b : string) :
  strings.Count a "/" = 0%nat -> strings.Count b "/" = 0%nat ->
  a ++ ":" ++ b <> EmptyString
  /\ strings.Count (a ++ ":" ++ b) "/" = 0%nat.
Proof.
  intros Ha Hb. split.
  - destruct a; discriminate.
  - rewrite Count_app, Ha. simpl. exact Hb.
Qed.

Lemma colons_dots (id : string) :
  colons id <> 0%nat -> id <> "." /\ id <> "..".
Proof. intros C. split; intros ->; apply C; reflexivity. Qed.

(** X18.  For a request on the path [/sensors/<a>:<b>/measures], [<a>] and
    [<b>] free of colons and slashes, whose body is decoded, the reading
    sent carries the identifier [<b>]; on a path whose segment, other than
    [.] and [..], does not hold exactly one colon it carries ["null"]. *)
Theorem sensorId_from_path (parse : string -> option time.Time)
    (dataChannel : list airGradientData) (body : string)
    (data : airGradientData) (now : time.Time) :
  Unmarshal parse body zeroData = (data, None) ->
  (forall a b,
     strings.Count a "/" = 0%nat -> strings.Count b "/" = 0%nat ->
     colons a = 0%nat -> colons b = 0%nat ->
     exists s p,
       ServeHTTP parse dataChannel (routePath (a ++ ":" ++ b))
         (http.ReadOk body) now = Some s
       /\ http.StatusCode (response s) = 200
       /\ channel s = (dataChannel ++ [p])%list
       /\ Id p = b)
  /\ (forall id,
        id <> EmptyString -> strings.Count id "/" = 0%nat ->
        id <> "." -> id <> ".." ->
        colons id <> 1%nat ->
        exists s p,
          ServeHTTP parse dataChannel (routePath id) (http.ReadOk body) now
          = Some s
          /\ http.StatusCode (response s) = 200
          /\ channel s = (dataChannel ++ [p])%list
          /\ Id p = "null").
Proof.
  intros U. split.
  - intros a b Sa Sb Ca Cb.
    destruct (colon_pair_segment a b Sa Sb) as (N & S).
    destruct (colons_dots (a ++ ":" ++ b)) as (D1 & D2).
    { unfold colons. rewrite Count_app. simpl. lia. }
    unfold ServeHTTP. rewrite (Vars_routePath _ N S D1 D2).
    eexists. eexists. split; [reflexivity|].
    erewrite mainHandler_accepted; [|reflexivity|exact U].
    simpl. split; [reflexivity|]. split; [reflexivity|].
    apply (instanceId_pair _ a b); [apply lookup_singleton_eq | | ];
      assumption.
  - intros id N S D1 D2 C.
    unfold ServeHTTP. rewrite (Vars_routePath _ N S D1 D2).
    eexists. eexists. split; [reflexivity|].
    erewrite mainHandler_accepted; [|reflexivity|exact U].
    simpl. split; [reflexivity|]. split; [reflexivity|].
    apply (instanceId_other _ id); [apply lookup_singleton_eq | assumption].
Qed.

Lemma sensorId_from_path_witness :
  (exists s p,
     ServeHTTP sampleRFC3339 [] examplePath (http.ReadOk exampleBody) receipt
     = Some s
     /\ channel s = [p] /\ Id p = "office-1")
  /\ (exists s p,
        ServeHTTP sampleRFC3339 [] "/sensors/office-1/measures"
          (http.ReadOk exampleBody) receipt = Some s
        /\ channel s = [p] /\ Id p = "null").
Proof.
  destruct (sensorId_from_path sampleRFC3339 [] exampleBody exampleData
              receipt ltac:(vm_compute; reflexivity)) as (P & O).
  split.
  - destruct (P "airgradient" "office-1" eq_refl eq_refl eq_refl eq_refl)
      as (s & p & E & _ & C & I).
    exists s, p. split; [exact E|]. split; [exact C | exact I].
  - destruct (O "office-1" ltac:(discriminate) eq_refl ltac:(discriminate)
                ltac:(discriminate) ltac:(discriminate))
      as (s & p & E & _ & C & I).
    exists s, p. split; [exact E|]. split; [exact C | exact I].
Defined.

(** ** White space around the body *)

Lemma scan_app (a b : string) (sc : json.scanner) :
  json.scan sc (a ++ b)
  = match json.scan sc a with
    | Some sc' => json.scan sc' b
    | None => None
    end.
Proof.
  revert sc. induction a as [|c a IH]; intros sc; simpl; [reflexivity|].
  destruct (json.step sc c); [apply IH | reflexivity].
Qed.

Lemma isSpace_cases (c : ascii) :
  json.isSpace c = true ->
  c = " "%char \/ c = "009"%char \/ c = "013"%char \/ c = "010"%char.
Proof.
  unfold json.isSpace. intros H.
  destruct (Ascii.eqb_spec c " "); [auto|].
  destruct (Ascii.eqb_spec c "009"); [auto|].
  destruct (Ascii.eqb_spec c "013"); [auto|].
  destruct (Ascii.eqb_spec c "010"); [auto|]. discriminate.
Qed.

Lemma endOfValue_state (v : json.Value) (ps ps' : list json.Frame)
    (st : json.Step) :
  json.endOfValue v ps = Some (ps', st) -> afterAValue st = true.
Proof.
  unfold json.endOfValue.
  destruct ps as [|[ms [k|]|ms [k|]|vs] ps0]; try discriminate;
    try (intros H; inversion H; reflexivity).
  destruct v; try discriminate. intros H; inversion H; reflexivity.
Qed.

Lemma endValue_space (X : option json.scanner) (c : ascii) :
  json.isSpace c = true ->
  (forall ps st, X = Some (ps, st) -> afterAValue st = true) ->
  json.endValue X c = X.
Proof.
  intros H A. destruct X as [[ps st]|]; [|reflexivity].
  specialize (A ps st eq_refl). unfold json.endValue.
  destruct st; try discriminate; rewrite H; reflexivity.
Qed.

Lemma eof_afterAValue (ps : list json.Frame) (st : json.Step) :
  afterAValue st = true ->
  json.eof (ps, st)
  = match st with json.stateEndTop v => Some v | _ => None end.
Proof. destruct st; try discriminate; reflexivity. Qed.

Lemma eof_unfold (ps : list json.Frame) (st : json.Step) :
  json.eof (ps, st)
  = match st with
    | json.stateEndTop v => Some v
    | _ => match json.step (ps, st) " " with
           | Some (_, json.stateEndTop v) => Some v
           | _ => None
           end
    end.
Proof. destruct st; reflexivity. Qed.

Lemma noSpace_head (c c' : ascii) (rest : string) :
  json.isSpace c = true -> noSpace (String c' rest) = true ->
  Ascii.eqb c c' = false.
Proof.
  simpl. intros H N. apply andb_true_iff in N as [N _].
  destruct (Ascii.eqb_spec c c') as [->|]; [|reflexivity].
  rewrite H in N. discriminate.
Qed.

Lemma step_space_eof (ps : list json.Frame) (st : json.Step) (c : ascii) :
  json.isSpace c = true -> literalOK st = true ->
  match json.step (ps, st) c with
  | Some sc' => json.eof sc'
  | None => None
  end = json.eof (ps, st).
Proof.
  intros H L.
  assert (N : forall acc,
             match json.endValue (json.endOfValue (json.Number acc) ps) c with
             | Some sc' => json.eof sc'
             | None => None
             end
             = match json.endValue (json.endOfValue (json.Number acc) ps) " " with
               | Some (_, json.stateEndTop v) => Some v
               | _ => None
               end).
  { intros acc.
    rewrite !endValue_space
      by (try exact H; try reflexivity; intros ? ?; apply endOfValue_state).
    destruct (json.endOfValue (json.Number acc) ps) as [[ps' st']|] eqn:E;
      [|reflexivity].
    apply endOfValue_state in E. rewrite (eof_afterAValue _ _ E).
    reflexivity. }
  destruct st.
  1-6: unfold json.step, json.endValue; rewrite H; reflexivity.
  12: { simpl in L. unfold json.eof, json.step.
        destruct rest as [|c' rest]; [reflexivity|].
        rewrite (noSpace_head c c' rest H L).
        rewrite (noSpace_head " " c' rest eq_refl L).
        destruct rest; reflexivity. }
  all: rewrite eof_unfold;
    destruct (isSpace_cases c H) as [->|[->|[->| ->]]];
    simpl json.step; try reflexivity; try apply N.
Qed.

Lemma afterAValue_literalOK (st : json.Step) :
  afterAValue st = true -> literalOK st = true.
Proof. destruct st; try discriminate; reflexivity. Qed.

Lemma afterValue_literalOK (ps ps' : list json.Frame) (c : ascii)
    (st' : json.Step) :
  json.afterValue ps c = Some (ps', st') -> literalOK st' = true.
Proof.
  unfold json.afterValue.
  destruct ps as [|[ms [k|]|ms [k|]|vs] ps0]; try discriminate;
    repeat match goal with
           | |- (if ?b then _ else _) = Some _ -> _ => destruct b
           end;
    try discriminate;
    try (intros H; inversion H; reflexivity);
    intros H; apply endOfValue_state in H; apply afterAValue_literalOK;
    exact H.
Qed.

Lemma endValue_literalOK (X : option json.scanner) (c : ascii)
    (ps' : list json.Frame) (st' : json.Step) :
  json.endValue X c = Some (ps', st') -> literalOK st' = true.
Proof.
  unfold json.endValue. destruct X as [[ps st]|]; [|discriminate].
  destruct st; try discriminate; destruct (json.isSpace c);
    try (intros H; inversion H; reflexivity);
    apply afterValue_literalOK.
Qed.

Lemma beginValue_literalOK (ps ps' : list json.Frame) (c : ascii)
    (st' : json.Step) :
  json.beginValue ps c = Some (ps', st') -> literalOK st' = true.
Proof.
  unfold json.beginValue, json.pushParseState.
  repeat match goal with
         | |- (if ?b then _ else _) = Some _ -> _ => destruct b
         end;
    try discriminate; intros H; inversion H; reflexivity.
Qed.

Lemma noSpace_tail (c : ascii) (rest : string) :
  noSpace (String c rest) = true -> noSpace rest = true.
Proof. simpl. intros H. apply andb_true_iff in H as [_ H]. exact H. Qed.

(** Inside a literal the scanner only ever expects letters. *)
Lemma step_literalOK (ps ps' : list json.Frame) (st st' : json.Step)
    (c : ascii) :
  json.step (ps, st) c = Some (ps', st') ->
  literalOK st = true -> literalOK st' = true.
Proof.
  intros H L. unfold json.step in H.
  destruct st; unfold json.afterInt, json.beginString in H;
    repeat match type of H with
           | (if ?b then _ else _) = Some _ => destruct b
           | match ?x with _ => _ end = Some _ => destruct x
           end;
    try discriminate;
    try (inversion H; subst; reflexivity);
    try (apply endValue_literalOK in H; exact H);
    try (apply afterValue_literalOK in H; exact H);
    try (apply beginValue_literalOK in H; exact H);
    try (apply endOfValue_state in H; apply afterAValue_literalOK; exact H).
  all: inversion H; subst; simpl in *.
  all: try (apply andb_true_iff in L as [_ L]; exact L).
Qed.

Lemma scan_literalOK (data : string) (sc sc' : json.scanner) :
  json.scan sc data = Some sc' ->
  literalOK (snd sc) = true -> literalOK (snd sc') = true.
Proof.
  revert sc. induction data as [|c data IH]; intros [ps st] H L;
    cbn [json.scan] in H.
  - inversion H; subst. exact L.
  - destruct (json.step (ps, st) c) as [[ps1 st1]|] eqn:E;
      [|discriminate H].
    apply (IH _ H). simpl. exact (step_literalOK _ _ _ _ _ E L).
Qed.

Lemma scan_spaces_eof (ws : string) (sc : json.scanner) :
  allSpace ws = true -> literalOK (snd sc) = true ->
  match json.scan sc ws with
  | Some sc' => json.eof sc'
  | None => None
  end = json.eof sc.
Proof.
  revert sc. induction ws as [|c ws IH]; intros [ps st] A L;
    cbn [json.scan]; [reflexivity|].
  simpl in A. apply andb_true_iff in A as [Hc A].
  rewrite <- (step_space_eof ps st c Hc L).
  destruct (json.step (ps, st) c) as [[ps1 st1]|] eqn:E; [|reflexivity].
  apply IH; [exact A|]. exact (step_literalOK _ _ _ _ _ E L).
Qed.

Lemma scan_spaces_begin (ws : string) :
  allSpace ws = true ->
  json.scan ([], json.stateBeginValue) ws = Some ([], json.stateBeginValue).
Proof.
  induction ws as [|c ws IH]; simpl; [reflexivity|].
  intros A. apply andb_true_iff in A as [Hc A]. rewrite Hc. auto.
Qed.

(** White space before and after a text does not change what the scanner
    recognises in it. *)
Lemma checkValid_padded (ws1 b ws2 : string) :
  allSpace ws1 = true -> allSpace ws2 = true ->
  json.checkValid (ws1 ++ b ++ ws2) = json.checkValid b.
Proof.
  intros A1 A2. unfold json.checkValid.
  rewrite scan_app, (scan_spaces_begin ws1 A1), scan_app.
  destruct (json.scan ([], json.stateBeginValue) b) as [sc|] eqn:E;
    [|reflexivity].
  apply scan_spaces_eof; [exact A2|].
  exact (scan_literalOK _ _ _ E eq_refl).
Qed.

(** X3.  White space (space, tab, carriage return, line feed) before and
    after the body changes nothing in what the handler does. *)
Theorem body_padding_ignored (parse : string -> option time.Time)
    (dataChannel : list airGradientData) (r : http.Request)
    (now : time.Time) (ws1 b ws2 : string) :
  allSpace ws1 = true -> allSpace ws2 = true ->
  mainHandler parse dataChannel (withBody (ws1 ++ b ++ ws2) r) now
  = mainHandler parse dataChannel (withBody b r) now.
Proof.
  intros A1 A2. unfold mainHandler, withBody, Unmarshal. simpl.
  rewrite (checkValid_padded ws1 b ws2 A1 A2). reflexivity.
Qed.

Lemma body_padding_ignored_witness :
  exists p,
    channel (mainHandler sampleRFC3339 []
               (withBody paddedBody exampleRequest) receipt) = [p]
    /\ Wifi p = -64 /\ Id p = "office-1".
Proof.
  assert (E : mainHandler sampleRFC3339 []
                (withBody paddedBody exampleRequest) receipt
              = mainHandler sampleRFC3339 []
                  (withBody exampleBody exampleRequest) receipt).
  { exact (body_padding_ignored sampleRFC3339 [] exampleRequest receipt
             (String "010" (String " " EmptyString)) exampleBody
             (String "013" (String "010" EmptyString)) eq_refl eq_refl). }
  rewrite E. eexists. split; [vm_compute; reflexivity|].
  split; reflexivity.
Defined.

(** X4.  A body that is empty or all white space is answered 400, with the
    message of a failed decoding, and nothing is sent. *)
Theorem blank_body_rejected (parse : string -> option time.Time)
    (dataChannel : list airGradientData) (r : http.Request)
    (now : time.Time) (ws : string) :
  allSpace ws = true ->
  mainHandler parse dataChannel (withBody ws r) now
  = {| response := http.Error "failed to unmarshal" http.StatusBadRequest;
       channel := dataChannel;
       logged := ["failed to unmarshal"] |}.
Proof.
  intros A. unfold mainHandler, withBody, Unmarshal, json.checkValid. simpl.
  rewrite (scan_spaces_begin ws A). reflexivity.
Qed.

Lemma blank_body_rejected_witness :
  http.StatusCode
    (response (mainHandler sampleRFC3339 []
                 (withBody EmptyString exampleRequest) receipt)) = 400.
Proof.
  rewrite (blank_body_rejected sampleRFC3339 [] exampleRequest receipt
             EmptyString eq_refl).
  reflexivity.
Defined.

(** ** Keys and members *)

(** A key names a field by its folded name alone. *)
Lemma fieldByName_fold (key : string) :
  fieldByName key
  = find (fun f => String.eqb (json.foldName (jsonName f))
                              (json.foldName key)) fields.
Proof.
  unfold fieldByName.
  destruct (find (fun f => String.eqb (jsonName f) key) fields) as [f|] eqn:F;
    [|reflexivity].
  apply find_some in F as [_ E]. apply String.eqb_eq in E. subst key.
  destruct f as [|i|]; [|destruct i|]; vm_compute; reflexivity.
Qed.

(** X5.  Keys are matched without regard to case: two keys with the same
    folded name are decoded alike, whatever follows them. *)
Theorem keys_match_by_folded_name (parse : string -> option time.Time)
    (k1 k2 : string) (v : json.Value) (ms : list (string * json.Value))
    (d : airGradientData) (saved : option json.Error) :
  json.foldName (json.unquote k1) = json.foldName (json.unquote k2) ->
  fieldByName (json.unquote k1) = fieldByName (json.unquote k2)
  /\ object parse ((k1, v) :: ms) d saved
     = object parse ((k2, v) :: ms) d saved.
Proof.
  intros E.
  assert (F : fieldByName (json.unquote k1) = fieldByName (json.unquote k2))
    by (rewrite !fieldByName_fold, E; reflexivity).
  split; [exact F|]. simpl. rewrite F. reflexivity.
Qed.

Lemma keys_match_by_folded_name_witness :
  fieldByName "PM003_Count" = Some (fInt fPM003)
  /\ object sampleRFC3339 [("WiFi", json.Number "7")] zeroData None
     = (setInt fWifi 7 zeroData, None).
Proof.
  destruct (keys_match_by_folded_name sampleRFC3339 "PM003_Count"
              "pm003_count" json.Null [] zeroData None eq_refl) as (F & _).
  destruct (keys_match_by_folded_name sampleRFC3339 "WiFi" "wifi"
              (json.Number "7") [] zeroData None eq_refl) as (_ & O).
  split.
  - transitivity (fieldByName (json.unquote "pm003_count"));
      [exact F | reflexivity].
  - transitivity (object sampleRFC3339 [("wifi", json.Number "7")]
                    zeroData None); [exact O | reflexivity].
Defined.

Lemma setTs_same (d : airGradientData) : setTs (Ts d) d = d.
Proof. destruct d; reflexivity. Qed.

(** X6.  Members whose key names no field, and members whose value is
    [null], change neither the struct nor the error: decoding an object is
    decoding it without them. *)
Theorem passed_over_members (parse : string -> option time.Time)
    (ms : list (string * json.Value)) (d : airGradientData)
    (saved : option json.Error) :
  object parse ms d saved
  = object parse (List.filter (fun m => negb (passedOver m)) ms) d saved.
Proof.
  revert d saved. induction ms as [|[k v] ms IH]; intros d saved;
    [reflexivity|].
  cbn [List.filter]. unfold passedOver at 1. cbn [fst snd].
  destruct (fieldByName (json.unquote k)) as [f|] eqn:F.
  - destruct v; cbn [isNull negb];
      try (cbn [object]; rewrite F;
           destruct f as [|i|];
           repeat match goal with
                  | |- context [match ?x with _ => _ end] =>
                      match type of x with
                      | option _ => destruct x
                      end
                  end;
           try reflexivity; apply IH).
    cbn [object]. rewrite F. destruct f as [|i|]; cbn.
    + rewrite setTs_same. apply IH.
    + apply IH.
    + apply IH.
  - cbn [negb object]. rewrite F. apply IH.
Qed.

(** ** Members that do not fit *)

Lemma mainHandler_misfit (parse : string -> option time.Time)
    (dataChannel : list airGradientData) (r : http.Request)
    (now : time.Time) (b : string) (v : json.Value) :
  http.Body_ r = http.ReadOk b ->
  json.checkValid b = Some v ->
  accepts parse v = false ->
  mainHandler parse dataChannel r now
  = {| response := http.Error "failed to unmarshal" http.StatusBadRequest;
       channel := dataChannel;
       logged := ["failed to unmarshal"] |}.
Proof.
  intros B V A. unfold mainHandler. rewrite B.
  destruct (Unmarshal parse b zeroData) as [data [e|]] eqn:U; [reflexivity|].
  assert (S : snd (Unmarshal parse b zeroData) = None)
    by (rewrite U; reflexivity).
  apply Unmarshal_accepts in S as (v' & V' & A'). congruence.
Qed.

Lemma misfit_member (parse : string -> option time.Time)
    (ms : list (string * json.Value)) (m : string * json.Value) :
  In m ms -> fits parse m = false ->
  accepts parse (json.Object ms) = false.
Proof.
  intros I F. simpl. apply not_true_is_false. intros A.
  rewrite forallb_forall in A. rewrite (A m I) in F. discriminate.
Qed.

Lemma digitsFrom_Count (s : string) (m un : Z) (ch : ascii) :
  strconv.digitsFrom s m = Some un -> strconv.isDigit ch = false ->
  strings.Count s ch = 0%nat.
Proof.
  revert m. induction s as [|c s IH]; simpl; intros m H D; [reflexivity|].
  destruct (strconv.isDigit c) eqn:Dc; [|discriminate].
  destruct (Ascii.eqb_spec c ch) as [->|]; [congruence|]. eauto.
Qed.

(** What [ParseInt] accepts has neither a fraction nor an exponent. *)
Lemma ParseInt_plain (lit : string) (n : Z) :
  strconv.ParseInt lit = Some n -> hasFractionOrExponent lit = false.
Proof.
  unfold strconv.ParseInt, strconv.ParseUint.
  destruct lit as [|c s]; [discriminate|].
  set (s1 := if Ascii.eqb c "+" || Ascii.eqb c "-" then s else String c s).
  intros H.
  assert (D : exists un, strconv.digitsFrom s1 0 = Some un).
  { destruct s1; [discriminate|].
    destruct (strconv.digitsFrom (String a s1) 0) as [un|];
      [eauto | discriminate]. }
  destruct D as (un & D).
  assert (C : forall ch, strconv.isDigit ch = false ->
                         Ascii.eqb ch "+" = false ->
                         Ascii.eqb ch "-" = false ->
                         strings.Count (String c s) ch = 0%nat).
  { intros ch Dch Np Nm. subst s1.
    destruct (Ascii.eqb c "+" || Ascii.eqb c "-") eqn:Sg;
      [|exact (digitsFrom_Count _ _ _ _ D Dch)].
    cbn [strings.Count].
    assert (E : Ascii.eqb c ch = false).
    { destruct (Ascii.eqb_spec c ch) as [->|]; [|reflexivity].
      rewrite Np, Nm in Sg. discriminate. }
    rewrite E. exact (digitsFrom_Count _ _ _ _ D Dch). }
  unfold hasFractionOrExponent.
  rewrite (C "."%char), (C "e"%char), (C "E"%char) by reflexivity.
  reflexivity.
Qed.

(** X7.  A number with a fraction or an exponent under the key of an
    integer field is refused, even where its value is a whole number: the
    request is answered 400 and nothing is sent. *)
Theorem fractional_integer_rejected (parse : string -> option time.Time)
    (dataChannel : list airGradientData) (r : http.Request)
    (now : time.Time) (b : string) (ms : list (string * json.Value))
    (k lit : string) (i : IntField) :
  http.Body_ r = http.ReadOk b ->
  json.checkValid b = Some (json.Object ms) ->
  In (k, json.Number lit) ms ->
  fieldByName (json.unquote k) = Some (fInt i) ->
  hasFractionOrExponent lit = true ->
  mainHandler parse dataChannel r now
  = {| response := http.Error "failed to unmarshal" http.StatusBadRequest;
       channel := dataChannel;
       logged := ["failed to unmarshal"] |}.
Proof.
  intros B V I F H.
  apply (mainHandler_misfit parse dataChannel r now b _ B V).
  apply (misfit_member parse ms _ I). unfold fits. cbn [fst snd].
  rewrite F. destruct (strconv.ParseInt lit) as [n|] eqn:P; [|reflexivity].
  apply ParseInt_plain in P. congruence.
Qed.

Lemma fractional_integer_rejected_witness :
  http.StatusCode
    (response (mainHandler sampleRFC3339 []
                 (withBody fractionBody exampleRequest) receipt)) = 400
  /\ channel (mainHandler sampleRFC3339 []
                (withBody fractionBody exampleRequest) receipt) = [].
Proof.
  rewrite (fractional_integer_rejected sampleRFC3339 []
             (withBody fractionBody exampleRequest) receipt fractionBody
             [("wifi", json.Number "1.0")] "wifi" "1.0" fWifi
             eq_refl ltac:(vm_compute; reflexivity)
             ltac:(left; reflexivity) eq_refl eq_refl).
  split; reflexivity.
Defined.

(** X8.  A member under the key [Ts], in any case, whose value is a
    number, a boolean, an array or an object is refused with 400, whatever
    the parser of times accepts, although the handler would overwrite the
    timestamp. *)
Theorem timestamp_of_wrong_kind_rejected
    (parse : string -> option time.Time)
    (dataChannel : list airGradientData) (r : http.Request)
    (now : time.Time) (b : string) (ms : list (string * json.Value))
    (k : string) (v : json.Value) :
  http.Body_ r = http.ReadOk b ->
  json.checkValid b = Some (json.Object ms) ->
  In (k, v) ms ->
  json.foldName (json.unquote k) = "TS" ->
  notNullNorString v = true ->
  mainHandler parse dataChannel r now
  = {| response := http.Error "failed to unmarshal" http.StatusBadRequest;
       channel := dataChannel;
       logged := ["failed to unmarshal"] |}.
Proof.
  intros B V I F N.
  apply (mainHandler_misfit parse dataChannel r now b _ B V).
  apply (misfit_member parse ms _ I). unfold fits. cbn [fst snd].
  rewrite fieldByName_fold, F.
  change (find _ fields) with (Some fTs).
  destruct v; try discriminate; reflexivity.
Qed.

Lemma timestamp_of_wrong_kind_rejected_witness :
  http.StatusCode
    (response (mainHandler sampleRFC3339 []
                 (withBody numericTsBody exampleRequest) receipt)) = 400.
Proof.
  rewrite (timestamp_of_wrong_kind_rejected sampleRFC3339 []
             (withBody numericTsBody exampleRequest) receipt numericTsBody
             [("ts", json.Number "1700000000")] "ts"
             (json.Number "1700000000")
             eq_refl ltac:(vm_compute; reflexivity)
             ltac:(left; reflexivity) eq_refl eq_refl).
  reflexivity.
Defined.

(** ** Readings fit the store *)

Lemma shr_1_nonneg (mrs : shr_record) :
  0 <= shr_m mrs -> 0 <= shr_m (shr_1 mrs).
Proof.
  destruct mrs as [m r s]. destruct m as [|[p|p|]|p]; simpl; lia.
Qed.

Lemma iter_shr_1_nonneg (p : positive) (mrs : shr_record) :
  0 <= shr_m mrs -> 0 <= shr_m (SpecFloat.iter_pos shr_1 p mrs).
Proof.
  revert mrs. induction p as [p IH|p IH|]; intros mrs H; simpl.
  - apply IH, IH, shr_1_nonneg, H.
  - apply IH, IH, H.
  - apply shr_1_nonneg, H.
Qed.

Lemma shr_fexp_nonneg (m e : Z) (l : location) :
  0 <= m -> 0 <= shr_m (fst (shr_fexp strconv.prec strconv.emax m e l)).
Proof.
  intros H. unfold shr_fexp, shr.
  assert (R : 0 <= shr_m (shr_record_of_loc m l))
    by (destruct l as [|[]]; exact H).
  destruct (_ - e); simpl; auto. apply iter_shr_1_nonneg, R.
Qed.

Lemma round_nearest_even_nonneg (mx : Z) (lx : location) :
  0 <= mx -> 0 <= round_nearest_even mx lx.
Proof.
  intros H. destruct lx as [|[]]; simpl; try lia.
  destruct (Z.even mx); lia.
Qed.

(** Rounding a mantissa that is not negative never gives a NaN. *)
Lemma binary_round_aux_not_nan (sx : bool) (mx ex : Z) (lx : location) :
  0 <= mx ->
  binary_round_aux strconv.prec strconv.emax sx mx ex lx <> S754_nan.
Proof.
  intros H. unfold binary_round_aux.
  pose proof (shr_fexp_nonneg mx ex lx H) as H1.
  destruct (shr_fexp strconv.prec strconv.emax mx ex lx) as [mrs' e'].
  simpl in H1.
  pose proof (shr_fexp_nonneg _ e' loc_Exact
                (round_nearest_even_nonneg _ (loc_of_shr_record mrs') H1))
    as H2.
  destruct (shr_fexp strconv.prec strconv.emax _ e' loc_Exact)
    as [mrs'' e''].
  simpl in H2. destruct (shr_m mrs'') as [|m|m]; [discriminate| |lia].
  destruct (e'' <=? strconv.emax - strconv.prec); discriminate.
Qed.

Lemma nearest_not_nan (d : strconv.decimal) : strconv.nearest d <> S754_nan.
Proof.
  unfold strconv.nearest. destruct (strconv.mant d =? 0); [discriminate|].
  unfold SFdiv, SFdiv_core_binary.
  match goal with
  | |- context [Z.div_eucl ?a ?b] =>
      pose proof (Z.div_pos a b) as Q;
      assert (A : 0 <= a);
      [|unfold Z.div in Q; destruct (Z.div_eucl a b) as [q r]]
  end.
  - destruct (_ - _ - _) eqn:E; try lia.
    apply Z.shiftl_nonneg. lia.
  - apply binary_round_aux_not_nan. simpl in Q. apply Q; [exact A | lia].
Qed.

(** What [ParseFloat] returns is a zero or a finite number. *)
Lemma ParseFloat_finite (lit : string) (x : float64) :
  strconv.ParseFloat lit = Some x -> isFinite x = true.
Proof.
  intros P. apply ParseFloat_nearest in P as (d & _ & -> & I).
  pose proof (nearest_not_nan d) as N.
  destruct (strconv.nearest d); try reflexivity; [discriminate | congruence].
Qed.

Lemma Unmarshal_storable (parse : string -> option time.Time) (b : string)
    (data : airGradientData) :
  Unmarshal parse b zeroData = (data, None) -> storable data.
Proof.
  unfold Unmarshal. destruct (json.checkValid b) as [v|]; [|discriminate].
  destruct v; simpl; try discriminate.
  - intros H. inversion H; subst. split; [|reflexivity].
    intros i. destruct i; simpl; lia.
  - intros O. split.
    + intros i. pose proof (object_int parse members zeroData data i O) as I.
      destruct (submitted (fInt i) members) as [v|].
      * destruct I as (lit & _ & P). exact (ParseInt_range lit _ P).
      * rewrite I. destruct i; simpl; lia.
    + pose proof (object_float parse members zeroData data O) as F.
      destruct (submitted fTemp members) as [v|].
      * destruct F as (lit & _ & P). exact (ParseFloat_finite lit _ P).
      * rewrite F. reflexivity.
Qed.

(** X2.  The handler keeps the channel to readings that fit the store:
    whatever the body, a reading it sends has its nine integers within the
    64-bit range of [int] and a temperature that is a zero or a finite
    number, never an infinity or a NaN. *)
Theorem readings_storable (parse : string -> option time.Time)
    (dataChannel : list airGradientData) (r : http.Request)
    (now : time.Time) :
  Forall storable dataChannel ->
  Forall storable (channel (mainHandler parse dataChannel r now)).
Proof.
  intros H. unfold mainHandler.
  destruct (http.Body_ r) as [b|b]; [|exact H].
  destruct (Unmarshal parse b zeroData) as [data [e|]] eqn:U; [exact H|].
  simpl. apply Forall_app. split; [exact H|].
  constructor; [|constructor].
  destruct (Unmarshal_storable parse b data U) as (I & F).
  split; [|exact F]. intros i. specialize (I i). destruct i; exact I.
Qed.

Lemma readings_storable_witness :
  Forall storable
    (channel (mainHandler sampleRFC3339 [] exampleRequest receipt)).
Proof.
  apply (readings_storable sampleRFC3339 [] exampleRequest receipt).
  constructor.
Defined.

(** ** The channel between the handlers and the writer *)

Lemma mainHandler_channel (parse : string -> option time.Time)
    (dataChannel : list airGradientData) (r : http.Request)
    (now : time.Time) :
  channel (mainHandler parse dataChannel r now)
  = (dataChannel ++ channel (mainHandler parse [] r now))%list
  /\ (length (channel (mainHandler parse [] r now)) <= 1)%nat.
Proof.
  unfold mainHandler. destruct (http.Body_ r) as [b|b];
    [|simpl; rewrite app_nil_r; auto].
  destruct (Unmarshal parse b zeroData) as [data [e|]]; simpl;
    [rewrite app_nil_r; auto | auto].
Qed.

Lemma serveAll_channel (parse : string -> option time.Time)
    (rs : list (http.Request * time.Time))
    (dataChannel : list airGradientData) :
  serveAll parse rs dataChannel
  = (dataChannel ++ serveAll parse rs [])%list.
Proof.
  unfold serveAll. revert dataChannel.
  induction rs as [|[r now] rs IH]; intros ch; simpl.
  - rewrite app_nil_r. reflexivity.
  - rewrite (IH (channel (mainHandler parse ch r now))).
    rewrite (IH (channel (mainHandler parse [] r now))).
    destruct (mainHandler_channel parse ch r now) as (-> & _).
    rewrite app_assoc. reflexivity.
Qed.

Lemma run_conserves (parse : string -> option time.Time)
    (acts : list Action) (st st' : Pipeline) :
  run parse acts st = Some st' ->
  (influx.Written (writeAPI st')
   ++ map influxPoint (holding st' ++ dataCh st'))%list
  = (influx.Written (writeAPI st)
     ++ map influxPoint
          (holding st ++ serveAll parse (served acts) (dataCh st)))%list.
Proof.
  revert st. induction acts as [|a acts IH]; intros st H; simpl in H.
  - inversion H; subst. reflexivity.
  - destruct (act parse a st) as [st1|] eqn:A; [|discriminate].
    rewrite (IH _ H). destruct a as [r now| |]; simpl in A.
    + destruct (length _ <=? capacity)%nat; [|discriminate].
      inversion A; subst. reflexivity.
    + unfold holding. destruct (held st); [discriminate|].
      destruct (dataCh st) as [|x rest] eqn:D; [discriminate|].
      inversion A; subst. simpl.
      rewrite (serveAll_channel parse _ rest).
      rewrite (serveAll_channel parse _ (x :: rest)).
      reflexivity.
    + unfold holding. destruct (held st) as [x|]; [|discriminate].
      inversion A; subst. simpl. rewrite <- app_assoc. reflexivity.
Qed.

Lemma act_bounded (parse : string -> option time.Time) (a : Action)
    (st st' : Pipeline) :
  act parse a st = Some st' ->
  (length (dataCh st) <= capacity)%nat ->
  (length (dataCh st') <= capacity)%nat
  /\ influx.Org (writeAPI st') = influx.Org (writeAPI st)
  /\ influx.Bucket_ (writeAPI st') = influx.Bucket_ (writeAPI st).
Proof.
  intros A B. destruct a as [r now| |]; simpl in A.
  - destruct (Nat.leb_spec (length (channel (mainHandler parse (dataCh st)
                                              r now))) capacity);
      [|discriminate].
    inversion A; subst. auto.
  - destruct (held st); [discriminate|].
    destruct (dataCh st) as [|x rest] eqn:D; [discriminate|].
    inversion A; subst. simpl in *. split; [lia | auto].
  - destruct (held st); [|discriminate].
    inversion A; subst. auto.
Qed.

Lemma Serve_room (parse : string -> option time.Time) (st : Pipeline)
    (r : http.Request) (now : time.Time) :
  dataCh st = [] -> act parse (Serve r now) st <> None.
Proof.
  intros D. simpl. rewrite D.
  destruct (mainHandler_channel parse [] r now) as (_ & L).
  destruct (Nat.leb_spec (length (channel (mainHandler parse [] r now)))
              capacity) as [|G]; [discriminate|].
  unfold capacity in G. lia.
Qed.

Lemma Serve_blocked (parse : string -> option time.Time) (st : Pipeline)
    (r : http.Request) (now : time.Time) :
  (length (dataCh st) <= capacity)%nat ->
  act parse (Serve r now) st = None ->
  exists x, dataCh st = [x]
            /\ channel (mainHandler parse [] r now) <> [].
Proof.
  intros B A. simpl in A.
  destruct (mainHandler_channel parse (dataCh st) r now) as (E & L).
  rewrite E in A. clear E.
  destruct (Nat.leb_spec
              (length (dataCh st ++ channel (mainHandler parse [] r now)))
              capacity) as [|G]; [discriminate|].
  rewrite length_app in G. unfold capacity in *.
  destruct (dataCh st) as [|x [|y rest]]; simpl in *; [lia| |lia].
  exists x. split; [reflexivity|].
  destruct (channel (mainHandler parse [] r now)); [simpl in G; lia|].
  discriminate.
Qed.

(** X9.  However handler calls, receives and writes of the writer
    interleave, no reading is lost, doubled or reordered: the points
    written so far, followed by the point of the reading the writer holds
    and by those of the readings still in the channel, are the points of
    the readings the handler calls sent, in the order of the calls.  The
    channel never holds more than one reading, so at most two readings are
    on their way, and the destination of the writes stays the same. *)
Theorem pipeline_conserves (parse : string -> option time.Time)
    (acts : list Action) (st st' : Pipeline) :
  (length (dataCh st) <= capacity)%nat ->
  run parse acts st = Some st' ->
  (influx.Written (writeAPI st')
   ++ map influxPoint (holding st' ++ dataCh st'))%list
  = (influx.Written (writeAPI st)
     ++ map influxPoint (holding st ++ dataCh st)
     ++ map influxPoint (serveAll parse (served acts) []))%list
  /\ (length (dataCh st') <= capacity)%nat
  /\ (length (holding st' ++ dataCh st') <= 1 + capacity)%nat
  /\ influx.Org (writeAPI st') = influx.Org (writeAPI st)
  /\ influx.Bucket_ (writeAPI st') = influx.Bucket_ (writeAPI st).
Proof.
  intros B H.
  assert (I : (length (dataCh st') <= capacity)%nat
              /\ influx.Org (writeAPI st') = influx.Org (writeAPI st)
              /\ influx.Bucket_ (writeAPI st')
                 = influx.Bucket_ (writeAPI st)).
  { revert st B H. induction acts as [|a acts IH]; intros st B H;
      simpl in H.
    - inversion H; subst. auto.
    - destruct (act parse a st) as [st1|] eqn:A; [|discriminate].
      destruct (act_bounded parse a st st1 A B) as (B1 & O1 & K1).
      destruct (IH st1 B1 H) as (B' & O' & K').
      split; [exact B'|]. split; congruence. }
  destruct I as (B' & O' & K'). split.
  - rewrite (run_conserves parse acts st st' H).
    rewrite (serveAll_channel parse _ (dataCh st)), app_assoc, map_app.
    reflexivity.
  - split; [exact B'|]. split; [|auto].
    rewrite length_app. unfold holding. destruct (held st'); simpl; lia.
Qed.

Lemma pipeline_conserves_witness :
  (exists st1,
     run sampleRFC3339 (firstn 4 exampleSchedule)
       {| dataCh := []; held := None; writeAPI := freshAPI |} = Some st1
     /\ influx.Written (writeAPI st1) = []
     /\ length (holding st1 ++ dataCh st1) = 2%nat)
  /\ exists st',
       run sampleRFC3339 exampleSchedule
         {| dataCh := []; held := None; writeAPI := freshAPI |} = Some st'
       /\ dataCh st' = [] /\ held st' = None
       /\ length (influx.Written (writeAPI st')) = 2%nat.
Proof.
  split.
  - destruct (run sampleRFC3339 (firstn 4 exampleSchedule)
                {| dataCh := []; held := None; writeAPI := freshAPI |})
      as [st1|] eqn:R; [|vm_compute in R; discriminate].
    exists st1. split; [reflexivity|].
    destruct (pipeline_conserves sampleRFC3339 (firstn 4 exampleSchedule)
                {| dataCh := []; held := None; writeAPI := freshAPI |} st1
                ltac:(unfold capacity; simpl; lia) R) as (C & _).
    assert (W : influx.Written (writeAPI st1) = [])
      by (vm_compute in R; inversion R; reflexivity).
    split; [exact W|].
    rewrite W in C. simpl in C.
    rewrite <- (length_map influxPoint), C. vm_compute. reflexivity.
  - destruct (run sampleRFC3339 exampleSchedule
                {| dataCh := []; held := None; writeAPI := freshAPI |})
      as [st'|] eqn:R; [|vm_compute in R; discriminate].
    exists st'. split; [reflexivity|].
    destruct (pipeline_conserves sampleRFC3339 exampleSchedule
                {| dataCh := []; held := None; writeAPI := freshAPI |} st'
                ltac:(unfold capacity; simpl; lia) R) as (C & _).
    assert (D : dataCh st' = [])
      by (vm_compute in R; inversion R; reflexivity).
    assert (E : held st' = None)
      by (vm_compute in R; inversion R; reflexivity).
    split; [exact D|]. split; [exact E|].
    unfold holding in C. rewrite D, E in C. simpl in C.
    rewrite app_nil_r in C. rewrite C. vm_compute. reflexivity.
Defined.

(** X10.  Handlers and writer never wait for each other for ever.  The
    writer can take no step only when it holds no reading and the channel
    is empty, and then every handler call completes.  When a handler call
    cannot complete, the channel is full and the writer can take a step:
    after at most two steps of the writer, without any other handler call,
    the blocked call completes.  From every state at most three steps of
    the writer alone leave nothing held and the channel empty, with every
    reading that was on its way written, in order. *)
Theorem pipeline_progress (parse : string -> option time.Time)
    (st : Pipeline) :
  (length (dataCh st) <= capacity)%nat ->
  (act parse Receive st = None -> act parse Write st = None ->
     held st = None /\ dataCh st = []
     /\ forall r now, act parse (Serve r now) st <> None)
  /\ (forall r now,
        act parse (Serve r now) st = None ->
        exists ws st1,
          ws <> [] /\ (length ws <= 2)%nat
          /\ forallb ofWriter ws = true
          /\ run parse ws st = Some st1
          /\ act parse (Serve r now) st1 <> None)
  /\ exists ws st2,
       (length ws <= 3)%nat /\ forallb ofWriter ws = true
       /\ run parse ws st = Some st2
       /\ held st2 = None /\ dataCh st2 = []
       /\ influx.Written (writeAPI st2)
          = (influx.Written (writeAPI st)
             ++ map influxPoint (holding st ++ dataCh st))%list.
Proof.
  intros B. split; [|split].
  - intros R W. simpl in R, W.
    destruct (held st) as [h|] eqn:Hh; [discriminate|].
    destruct (dataCh st) as [|x rest] eqn:D; [|discriminate].
    split; [reflexivity|]. split; [reflexivity|].
    intros r now. apply Serve_room, D.
  - intros r now A.
    destruct (Serve_blocked parse st r now B A) as (x & D & _).
    destruct (held st) as [h|] eqn:Hh.
    + exists [Write; Receive]. eexists. split; [discriminate|].
      split; [simpl; lia|]. split; [reflexivity|].
      split; [simpl; rewrite Hh; simpl; rewrite D; reflexivity|].
      apply Serve_room. reflexivity.
    + exists [Receive]. eexists. split; [discriminate|].
      split; [simpl; lia|]. split; [reflexivity|].
      split; [simpl; rewrite Hh, D; reflexivity|].
      apply Serve_room. reflexivity.
  - unfold holding.
    destruct (held st) as [h|] eqn:Hh;
      destruct (dataCh st) as [|x [|y rest]] eqn:D;
      try (simpl in B; unfold capacity in B; lia).
    + exists [Write]. eexists. split; [simpl; lia|].
      split; [reflexivity|].
      split; [simpl; rewrite Hh; reflexivity|].
      simpl. rewrite D. auto.
    + exists [Write; Receive; Write]. eexists. split; [simpl; lia|].
      split; [reflexivity|].
      split; [simpl; rewrite Hh; simpl; rewrite D; reflexivity|].
      simpl. rewrite <- app_assoc. auto.
    + exists []. eexists. split; [simpl; lia|]. split; [reflexivity|].
      split; [reflexivity|]. simpl. rewrite app_nil_r. auto.
    + exists [Receive; Write]. eexists. split; [simpl; lia|].
      split; [reflexivity|].
      split; [simpl; rewrite Hh, D; reflexivity|].
      simpl. auto.
Qed.

Lemma pipeline_progress_witness :
  act sampleRFC3339 (Serve exampleRequest receipt) busy = None
  /\ exists ws st1,
       (length ws <= 2)%nat
       /\ run sampleRFC3339 ws busy = Some st1
       /\ act sampleRFC3339 (Serve exampleRequest receipt) st1 <> None.
Proof.
  destruct (pipeline_progress sampleRFC3339 busy
              ltac:(unfold capacity; simpl; lia)) as (_ & P & _).
  split; [vm_compute; reflexivity|].
  destruct (P exampleRequest receipt ltac:(vm_compute; reflexivity))
    as (ws & st1 & _ & L & _ & R & S).
  exists ws, st1. split; [exact L|]. split; [exact R | exact S].
Defined.

(** ** The writer *)

Lemma writer_app (a b : list airGradientData) (w : influx.WriteAPI) :
  writer (a ++ b) w = writer b (writer a w).
Proof.
  revert w. induction a as [|x a IH]; intros w; simpl; [reflexivity|].
  apply IH.
Qed.

Lemma run_writes (parse : string -> option time.Time)
    (ch : list airGradientData) (w : influx.WriteAPI) :
  run parse (iterations (length ch))
    {| dataCh := ch; held := None; writeAPI := w |}
  = Some {| dataCh := []; held := None; writeAPI := writer ch w |}.
Proof.
  revert w. induction ch as [|x ch IH]; intros w; simpl; [reflexivity|].
  apply IH.
Qed.

(** X11.  The writer loop composes: taking the readings in two batches is
    taking them in one; as many iterations, each a receive and a write, as
    the channel holds readings leave it empty with every reading written,
    in order; and the loop never changes the organisation or the
    destination of the write API. *)
Theorem writer_batches (parse : string -> option time.Time)
    (a b : list airGradientData) (w : influx.WriteAPI) :
  writer (a ++ b) w = writer b (writer a w)
  /\ run parse (iterations (length a))
       {| dataCh := a; held := None; writeAPI := w |}
     = Some {| dataCh := []; held := None; writeAPI := writer a w |}
  /\ influx.Written (writer (a ++ b) w)
     = (influx.Written w ++ map influxPoint a ++ map influxPoint b)%list
  /\ influx.Org (writer a w) = influx.Org w
  /\ influx.Bucket_ (writer a w) = influx.Bucket_ w.
Proof.
  split; [apply writer_app|]. split; [apply run_writes|].
  split; [rewrite writer_Written, map_app; reflexivity|].
  apply writer_destination.
Qed.

(** X12.  The point keeps all of the reading: two readings with the same
    point are the same reading. *)
Theorem influxPoint_injective (p q : airGradientData) :
  influxPoint p = influxPoint q -> p = q.
Proof.
  intros H.
  assert (I : forall i, getInt i p = getInt i q).
  { intros i.
    assert (E : influx.Fields (influxPoint p) !! storeName i
                = influx.Fields (influxPoint q) !! storeName i)
      by (rewrite H; reflexivity).
    rewrite !influxPoint_int in E. congruence. }
  assert (T : Temp p = Temp q).
  { assert (E : influx.Fields (influxPoint p) !! "temp"
                = influx.Fields (influxPoint q) !! "temp")
      by (rewrite H; reflexivity).
    change (Some (influx.Float (Temp p)) = Some (influx.Float (Temp q))) in E.
    congruence. }
  assert (N : Id p = Id q).
  { assert (E : influx.Tags (influxPoint p) !! "id"
                = influx.Tags (influxPoint q) !! "id")
      by (rewrite H; reflexivity).
    change (Some (Id p) = Some (Id q)) in E. congruence. }
  assert (S : Ts p = Ts q).
  { change (influx.Time (influxPoint p) = influx.Time (influxPoint q)).
    rewrite H. reflexivity. }
  pose proof (I fWifi) as I1. pose proof (I fC02) as I2.
  pose proof (I fPM01) as I3. pose proof (I fPM02) as I4.
  pose proof (I fPM10) as I5. pose proof (I fPM003) as I6.
  pose proof (I fTVOC) as I7. pose proof (I fNOX) as I8.
  pose proof (I fHum) as I9.
  destruct p, q. simpl in *. congruence.
Qed.

Lemma influxPoint_injective_witness :
  exampleData = setTemp (Temp exampleData) exampleData.
Proof.
  apply (influxPoint_injective exampleData
           (setTemp (Temp exampleData) exampleData)).
  reflexivity.
Defined.

(** ** More on the connection and on main *)

Lemma setFlushInterval_same (config : Configuration) :
  setFlushInterval (FlushInterval (InfluxDB_ config)) config = config.
Proof. destruct config as [s i]. destruct i. reflexivity. Qed.

Lemma InfluxConnect_config (config : Configuration) :
  fst (InfluxConnect config)
  = match writeDest config with
    | inl _ => config
    | inr _ =>
        if FlushInterval (InfluxDB_ config) =? 0
        then setFlushInterval 30 config else config
    end.
Proof.
  unfold InfluxConnect. destruct (writeDest config); reflexivity.
Qed.

(** X13.  A successful [InfluxConnect] leaves the configuration as it was
    but for the flush interval, which afterwards is not zero; the client
    takes address, TLS switch and organisation from it as they are; and
    connecting again with the configuration left behind gives the same
    client and write API and changes nothing more. *)
Theorem InfluxConnect_again (config cfg' : Configuration)
    (client : influx.Client) (api : influx.WriteAPI) :
  InfluxConnect config = (cfg', inr (client, api)) ->
  cfg' = setFlushInterval (FlushInterval (InfluxDB_ cfg')) config
  /\ FlushInterval (InfluxDB_ cfg') <> 0
  /\ influx.ServerURL client = Address (InfluxDB_ config)
  /\ influx.InsecureSkipVerify (influx.Opts client)
     = SkipVerifySsl (InfluxDB_ config)
  /\ influx.Org api = Organization (InfluxDB_ config)
  /\ influx.Written api = []
  /\ InfluxConnect cfg' = (cfg', inr (client, api)).
Proof.
  intros H. unfold InfluxConnect in H.
  destruct (writeDest config) as [e|dest] eqn:W; [discriminate|].
  cbv zeta in H.
  destruct (Z.eqb_spec (FlushInterval (InfluxDB_ config)) 0) as [Z0|NZ].
  - injection H as <- <- <-.
    repeat (split; [reflexivity || discriminate|]).
    unfold InfluxConnect.
    change (writeDest (setFlushInterval 30 config)) with (writeDest config).
    rewrite W. reflexivity.
  - injection H as <- <- <-.
    split; [symmetry; apply setFlushInterval_same|].
    repeat (split; [reflexivity || assumption|]).
    unfold InfluxConnect. rewrite W. cbv zeta.
    destruct (Z.eqb_spec (FlushInterval (InfluxDB_ config)) 0);
      [contradiction | reflexivity].
Qed.

Lemma InfluxConnect_again_witness :
  exists cfg' client api,
    InfluxConnect v1Config = (cfg', inr (client, api))
    /\ FlushInterval (InfluxDB_ cfg') = 30
    /\ InfluxConnect cfg' = (cfg', inr (client, api)).
Proof.
  destruct (InfluxConnect v1Config) as [cfg' [e|[client api]]] eqn:E;
    [vm_compute in E; discriminate|].
  exists cfg', client, api. split; [reflexivity|].
  destruct (InfluxConnect_again v1Config cfg' client api E)
    as (_ & _ & _ & _ & _ & _ & A).
  split; [|exact A]. vm_compute in E. inversion E. reflexivity.
Defined.

Lemma append_nonEmpty (a b : string) :
  a <> EmptyString -> a ++ b <> EmptyString.
Proof. destruct a; [congruence | discriminate]. Qed.

(** X14.  A client is never built with an empty write destination, and its
    credential is empty exactly when no token is set and user name or
    password is missing: a user name without a password, or a password
    without a user name, is dropped. *)
Theorem InfluxConnect_never_empty (config cfg' : Configuration)
    (client : influx.Client) (api : influx.WriteAPI) :
  InfluxConnect config = (cfg', inr (client, api)) ->
  let i := InfluxDB_ config in
  influx.Bucket_ api <> EmptyString
  /\ (influx.AuthToken client = EmptyString <->
      Token i = EmptyString
      /\ (Username i = EmptyString \/ Password i = EmptyString)).
Proof.
  intros H i. subst i.
  pose proof (InfluxConnect_dest config) as E. rewrite H in E. simpl in E.
  destruct (writeDest config) as [e|dest] eqn:W; [discriminate|].
  inversion E; subst; clear E. simpl. split.
  - unfold writeDest in W.
    destruct (nonEmpty (Bucket (InfluxDB_ config))) eqn:B.
    + inversion W; subst. apply nonEmpty_true, B.
    + destruct (nonEmpty (Database (InfluxDB_ config))) eqn:D;
        [|discriminate].
      destruct (nonEmpty (RetentionPolicy (InfluxDB_ config)));
        [|discriminate].
      inversion W; subst. apply append_nonEmpty, nonEmpty_true, D.
  - unfold auth.
    destruct (nonEmpty (Token (InfluxDB_ config))) eqn:T.
    + apply nonEmpty_true in T. split; [congruence | tauto].
    + apply nonEmpty_false in T.
      destruct (nonEmpty (Username (InfluxDB_ config))) eqn:U;
        destruct (nonEmpty (Password (InfluxDB_ config))) eqn:P; simpl;
        try apply nonEmpty_true in U; try apply nonEmpty_false in U;
        try apply nonEmpty_true in P; try apply nonEmpty_false in P.
      * split; [intros A; apply append_nonEmpty in A; tauto | tauto].
      * tauto.
      * tauto.
      * tauto.
Qed.

Lemma InfluxConnect_never_empty_witness :
  exists cfg' client api,
    InfluxConnect v1Config = (cfg', inr (client, api))
    /\ influx.Bucket_ api <> EmptyString
    /\ influx.AuthToken client <> EmptyString.
Proof.
  destruct (InfluxConnect v1Config) as [cfg' [e|[client api]]] eqn:E;
    [vm_compute in E; discriminate|].
  exists cfg', client, api. split; [reflexivity|].
  destruct (InfluxConnect_never_empty v1Config cfg' client api E)
    as (B & A).
  split; [exact B|]. intros N. apply A in N as (_ & [U|U]);
    vm_compute in U; discriminate.
Defined.

Lemma InfluxConnect_server (config : Configuration) :
  Server_ (fst (InfluxConnect config)) = Server_ config.
Proof.
  rewrite InfluxConnect_config. destruct (writeDest config); [reflexivity|].
  destruct (FlushInterval (InfluxDB_ config) =? 0); reflexivity.
Qed.

(** X16.  What [main] does is in this order.  A fatal log is the only
    event of its run.  A run that starts a listener had a configuration that
    loaded and connected; it listens on the configured address, after the
    route is registered and the writer is started; it flushes the store
    client after the signal and closes the client after the flush, as its
    last step. *)
Theorem main_order (loaded : option Configuration) (sig : string) :
  let t := main loaded sig in
  (forall op msg, In (Fatal op msg) t -> t = [Fatal op msg])
  /\ (loaded = None ->
        t = [Fatal "main.LoadConfiguration" "failed to load configuration"])
  /\ (listens t ->
        exists config,
          loaded = Some config
          /\ ~ connectFails config
          /\ (forall addr, In (GoListenAndServe addr) t ->
                addr = ListenAddr (Server_ config))
          /\ before (HandleFunc "/sensors/{id}/measures")
                    (GoListenAndServe (ListenAddr (Server_ config))) t
          /\ before GoWriter
                    (GoListenAndServe (ListenAddr (Server_ config))) t
          /\ before (ReceiveSignal sig) Flush t
          /\ before Flush Close t
          /\ last t = Some Close).
Proof.
  intros t. subst t. unfold main.
  destruct loaded as [config|].
  2:{ split; [|split; [reflexivity|]].
      - intros op msg [E|[]]. inversion E. reflexivity.
      - intros (addr & [E|[]]). discriminate. }
  pose proof (InfluxConnect_server config) as S.
  unfold connectFails.
  destruct (InfluxConnect config) as [cfg' [e|cw]] eqn:IC; simpl in S.
  - split; [|split; [discriminate|]].
    + intros op msg [E|[]]. inversion E. reflexivity.
    + intros (addr & [E|[]]). discriminate.
  - rewrite S. split; [|split; [discriminate|]].
    + intros op msg I. simpl in I.
      repeat (destruct I as [I|I]; [discriminate|]). destruct I.
    + intros _. exists config. split; [reflexivity|].
      split; [rewrite IC; simpl; discriminate|]. split.
      { intros addr I. simpl in I.
        repeat (destruct I as [I|I];
                [try discriminate; try (inversion I; reflexivity)|]).
        destruct I. }
      split; [exists [GoErrorMonitor; SignalNotify],
                [GoWriter; Info ("listening on " ++ ListenAddr (Server_ config))],
                [ReceiveSignal sig;
                 Info ("caught signal " ++ sig ++ ", flushing data to InfluxDB");
                 Flush; Flush; Close]; reflexivity|].
      split; [exists [GoErrorMonitor; SignalNotify;
                      HandleFunc "/sensors/{id}/measures"],
                [Info ("listening on " ++ ListenAddr (Server_ config))],
                [ReceiveSignal sig;
                 Info ("caught signal " ++ sig ++ ", flushing data to InfluxDB");
                 Flush; Flush; Close]; reflexivity|].
      split; [exists [GoErrorMonitor; SignalNotify;
                      HandleFunc "/sensors/{id}/measures"; GoWriter;
                      Info ("listening on " ++ ListenAddr (Server_ config));
                      GoListenAndServe (ListenAddr (Server_ config))],
                [Info ("caught signal " ++ sig ++ ", flushing data to InfluxDB")],
                [Flush; Close]; reflexivity|].
      split; [|reflexivity].
      exists [GoErrorMonitor; SignalNotify;
              HandleFunc "/sensors/{id}/measures"; GoWriter;
              Info ("listening on " ++ ListenAddr (Server_ config));
              GoListenAndServe (ListenAddr (Server_ config));
              ReceiveSignal sig;
              Info ("caught signal " ++ sig ++ ", flushing data to InfluxDB")],
             [Flush], []; reflexivity.
Qed.

Lemma main_order_witness :
  before (ReceiveSignal "terminated") Flush
    (main (Some exampleConfig) "terminated")
  /\ main None "terminated"
     = [Fatal "main.LoadConfiguration" "failed to load configuration"].
Proof.
  destruct (main_order (Some exampleConfig) "terminated") as (_ & _ & L).
  destruct (main_order None "terminated") as (_ & N & _).
  split; [|exact (N eq_refl)].
  destruct (L ltac:(exists "0.0.0.0:19999"; vm_compute; auto 10))
    as (config & E & _ & _ & _ & _ & B & _).
  exact B.
Defined.

(** X15.  Every integer of the 64-bit range, written in base 10 under the
    name of an integer field, is decoded to that integer in that field, the
    other fields and the error staying as they are. *)
Theorem every_int64_accepted (parse : string -> option time.Time)
    (i : IntField) (n : Z) (d : airGradientData)
    (saved : option json.Error) :
  - 2 ^ 63 <= n < 2 ^ 63 ->
  object parse [(intName i, json.Number (strconv.FormatInt n))] d saved
  = (setInt i n d, saved)
  /\ getInt i (setInt i n d) = n
  /\ forall j, j <> i -> getInt j (setInt i n d) = getInt j d.
Proof.
  intros R. split; [|split].
  - cbn [object].
    assert (F : fieldByName (json.unquote (intName i)) = Some (fInt i))
      by (destruct i; reflexivity).
    rewrite F, (ParseInt_FormatInt n R). reflexivity.
  - rewrite getInt_setInt. destruct (decide (i = i)); congruence.
  - intros j N. rewrite getInt_setInt.
    destruct (decide (j = i)); congruence.
Qed.

Lemma every_int64_accepted_witness :
  object sampleRFC3339
    [("wifi", json.Number (strconv.FormatInt (- 2 ^ 63)))] zeroData None
  = (setInt fWifi (- 2 ^ 63) zeroData, None).
Proof.
  destruct (every_int64_accepted sampleRFC3339 fWifi (- 2 ^ 63) zeroData None
              ltac:(lia)) as (O & _).
  exact O.
Defined.
